(** * Trade analytics of the trading dashboard

    A shallow embedding of the four derived views computed by
    [src/components/PerformanceChart.tsx] (the equity curve, the per-symbol
    statistics, the daily P&L series and the win/loss distribution), together
    with the JavaScript built-ins these computations rest on.

    Conventions of the embedding:
    - a JavaScript [number] that carries money or a percentage is an exact
      rational ([Qc]); rounding, infinities and NaN of binary64 are outside
      the model.  The one NaN the component depends on, the time value of an
      invalid [Date], is modelled on its own as [None];
    - counters ([wins++], [.length]) are [nat];
    - an optional property ([exit_timestamp?: string]) is an [option];
    - a plain object used as a dictionary is an association list in insertion
      order, read back in the order [Object.entries] prescribes;
    - [Array.prototype.sort] is the stable insertion sort. *)

From Stdlib Require Import List String Ascii Bool Arith ZArith NArith Lia.
From Stdlib Require Import QArith Qcanon.
From Stdlib Require Import Permutation Sorted.
From Stdlib Require Import DecimalString.
Import ListNotations.

Close Scope Qc_scope.
Close Scope Q_scope.
Local Open Scope string_scope.
Local Open Scope list_scope.

(** ** JavaScript built-ins *)

Module Js.

(** *** Numbers *)

Definition number : Type := Qc.

Definition num (z : Z) : number := Q2Qc (inject_Z z).

Definition nat_num (n : nat) : number := num (Z.of_nat n).

(** [ToBoolean] on a number: only zero is falsy (NaN is outside the model). *)
Definition truthy (x : number) : bool := negb (Qeq_bool x 0).

(** [x > 0]. *)
Definition gt0 (x : number) : bool := negb (Qle_bool x 0).

(** [ToBoolean] on an optional number: [undefined] is falsy. *)
Definition truthy_opt (x : option number) : bool :=
  match x with
  | Some v => truthy v
  | None => false
  end.

(** [x || 0] on an optional number. *)
Definition or_zero (x : option number) : number :=
  match x with
  | Some v => if truthy v then v else num 0
  | None => num 0
  end.

(** [undefined > 0] is false. *)
Definition gt0_opt (x : option number) : bool :=
  match x with
  | Some v => gt0 v
  | None => false
  end.

(** [ToBoolean] on an optional string: [undefined] and the empty string
    are falsy. *)
Definition truthy_str (x : option string) : bool :=
  match x with
  | Some s => negb (s =? "")
  | None => false
  end.

(** Template-literal rendering of a non-negative integer. *)
Definition string_of_nat (n : nat) : string :=
  NilEmpty.string_of_uint (Nat.to_uint n).

(** *** [Array.prototype.sort]

    The comparison function returns a number or NaN ([None]); the sort
    reads NaN as [+0].  The sort is stable: an element of the input
    ends up before the later elements it ties with. *)

Section Sort.
Context {A : Type}.
Variable comparefn : A -> A -> option Z.

Definition SortCompare (x y : A) : Z :=
  match comparefn x y with
  | Some v => v
  | None => 0%Z
  end.

Fixpoint insert (x : A) (l : list A) : list A :=
  match l with
  | [] => [x]
  | y :: l' =>
      if (SortCompare x y <=? 0)%Z then x :: y :: l'
      else y :: insert x l'
  end.

Definition Array_sort (l : list A) : list A := fold_right insert [] l.
End Sort.

(** *** Plain objects as dictionaries

    Own string-keyed properties in insertion order.  [Object.entries]
    lists the keys that are array indices first, in ascending numeric
    order, then the other keys in insertion order.  A read finds own
    properties only: keys that name a member of [Object.prototype] are
    outside the model. *)

Section Obj.
Context {V : Type}.

Definition Obj : Type := list (string * V).

Fixpoint get (k : string) (o : Obj) : option V :=
  match o with
  | [] => None
  | (k', v) :: o' => if k' =? k then Some v else get k o'
  end.

Fixpoint set (k : string) (v : V) (o : Obj) : Obj :=
  match o with
  | [] => [(k, v)]
  | (k', v') :: o' =>
      if k' =? k then (k', v) :: o' else (k', v') :: set k v o'
  end.
End Obj.
Arguments Obj : clear implicits.

Definition digit_of (c : ascii) : option N :=
  let n := N_of_ascii c in
  if ((48 <=? n) && (n <=? 57))%N then Some (n - 48)%N else None.

Fixpoint digits_from (acc : N) (s : string) : option N :=
  match s with
  | EmptyString => Some acc
  | String c s' =>
      match digit_of c with
      | Some d => digits_from (acc * 10 + d)%N s'
      | None => None
      end
  end.

(** A key is an array index when it is the canonical decimal spelling of
    an integer below [2^32 - 1]. *)
Definition array_index (k : string) : option N :=
  match k with
  | EmptyString => None
  | String c rest =>
      if (c =? "0")%char && negb (rest =? "") then None
      else match digits_from 0 k with
           | Some n => if (n <? 4294967295)%N then Some n else None
           | None => None
           end
  end.

Definition is_index {V} (e : string * V) : bool :=
  match array_index (fst e) with Some _ => true | None => false end.

Definition index_compare {V} (a b : string * V) : option Z :=
  match array_index (fst a), array_index (fst b) with
  | Some x, Some y => Some (Z.of_N x - Z.of_N y)%Z
  | _, _ => None
  end.

Definition Object_entries {V} (o : Obj V) : list (string * V) :=
  Array_sort index_compare (filter is_index o)
    ++ filter (fun e => negb (is_index e)) o.

(** *** [Date]

    [parse s] is [new Date(s).getTime()], a time value in milliseconds or
    NaN ([None]).  [DateString t] is the calendar day of a valid time
    value in the local time zone, as [toDateString] prints it. *)

Class DateApi : Type :=
  { parse : string -> option Z;
    DateString : Z -> string }.

Definition getTime `{DateApi} (s : string) : option Z := parse s.

(** [new Date(s).toDateString()]. *)
Definition toDateString `{DateApi} (s : string) : string :=
  match parse s with
  | Some t => DateString t
  | None => "Invalid Date"
  end.

(** [new Date(a).getTime() - new Date(b).getTime()]. *)
Definition time_diff (a b : option Z) : option Z :=
  match a, b with
  | Some x, Some y => Some (x - y)%Z
  | _, _ => None
  end.

End Js.

(** ** The records of [services/api] *)

Module Api.

Import Js.

Inductive Side : Type := LONG | SHORT.

Module TradeEntry.
Record t : Type :=
  { trade_id : string;
    timestamp : string;
    symbol : string;
    side : Side;
    entry_price : number;
    quantity : number;
    leverage : number;
    risk_pct : number;
    reward_pct : number;
    stop_loss : number;
    take_profit : number;
    current_roe : number;
    drawdown : number;
    max_roe : number;
    (** ['OPEN' | 'CLOSED_WIN' | 'CLOSED_LOSS'] in the declaration; the
        component compares it with string literals, so it is kept as
        the string it is at run time. *)
    trade_status : string;
    exit_price : option number;
    exit_timestamp : option string;
    actual_return_pct : option number;
    notes : string }.
End TradeEntry.

Module PerformanceMetrics.
Record t : Type :=
  { total_trades : number;
    winning_trades : number;
    losing_trades : number;
    win_rate : number;
    avg_win : number;
    avg_loss : number;
    profit_factor : number;
    max_drawdown : number;
    current_balance : number;
    total_pnl : number;
    total_pnl_pct : number;
    sharpe_ratio : number }.
End PerformanceMetrics.

End Api.

(** ** The component [PerformanceChart] *)

Module PerformanceChart.

Import Js Api.

Module EquityPoint.
Record t : Type :=
  { time : string;
    balance : number;
    pnl : number;
    symbol : option string;
    side : option Side }.
End EquityPoint.

Module Stats.
(** The accumulator objects of [symbolStats]: created with these three
    own properties and no other. *)
Record t : Type :=
  { wins : nat;
    losses : nat;
    totalPnL : number }.

(** The property read [stats.total]: the accumulator has no such
    property, the read yields [undefined]. *)
Definition total (stats : t) : option number := None.
End Stats.

Module SymbolStat.
Record t : Type :=
  { symbol : string;
    wins : nat;
    losses : nat;
    totalPnL : number;
    total : nat;
    winRate : number }.
End SymbolStat.

Module DailyPnL.
Record t : Type :=
  { date : string;
    pnl : number }.
End DailyPnL.

Module Slice.
Record t : Type :=
  { name : string;
    value : nat;
    color : string }.
End Slice.

(** [trade.trade_status !== 'OPEN'] *)
Definition not_open (trade : TradeEntry.t) : bool :=
  negb (TradeEntry.trade_status trade =? "OPEN").

Section WithDate.
Context `{DateApi}.

(** The comparison function of the equity curve's sort. *)
Definition by_timestamp (a b : TradeEntry.t) : option Z :=
  time_diff (getTime (TradeEntry.timestamp a))
            (getTime (TradeEntry.timestamp b)).

(** [trades.filter(...).sort(...)] of the equity curve. *)
Definition closedTrades (trades : list TradeEntry.t) : list TradeEntry.t :=
  Array_sort by_timestamp (filter not_open trades).

(** The increment of one trade at a running balance. *)
Definition trade_pnl (trade : TradeEntry.t) (balance : number) : number :=
  match TradeEntry.actual_return_pct trade with
  | Some r => if truthy r then ((r / num 100) * balance)%Qc else num 0
  | None => num 0
  end.

(** The body of [closedTrades.forEach((trade, index) => ...)], the
    running [balance] threaded through. *)
Fixpoint replay (balance : number) (index : nat)
         (closed : list TradeEntry.t) : list EquityPoint.t :=
  match closed with
  | [] => []
  | trade :: rest =>
      let pnl := trade_pnl trade balance in
      let balance' := (balance + pnl)%Qc in
      {| EquityPoint.time := "Trade " ++ string_of_nat (index + 1);
         EquityPoint.balance := balance';
         EquityPoint.pnl := pnl;
         EquityPoint.symbol := Some (TradeEntry.symbol trade);
         EquityPoint.side := Some (TradeEntry.side trade) |}
        :: replay balance' (S index) rest
  end.

Definition start_balance (performance : PerformanceMetrics.t) : number :=
  (PerformanceMetrics.current_balance performance
   - PerformanceMetrics.total_pnl performance)%Qc.

Definition start_point (balance : number) : EquityPoint.t :=
  {| EquityPoint.time := "Start";
     EquityPoint.balance := balance;
     EquityPoint.pnl := num 0;
     EquityPoint.symbol := None;
     EquityPoint.side := None |}.

Definition equityCurve (trades : list TradeEntry.t)
           (performance : option PerformanceMetrics.t)
  : list EquityPoint.t :=
  match performance with
  | None => []
  | Some performance =>
      if (List.length trades =? 0)%nat then []
      else
        let balance := start_balance performance in
        start_point balance :: replay balance 0 (closedTrades trades)
  end.
End WithDate.

(** One step of the [forEach] that fills [symbolStats]. *)
Definition symbol_step (symbolStats : Obj Stats.t) (trade : TradeEntry.t)
  : Obj Stats.t :=
  let key := TradeEntry.symbol trade in
  let symbolStats :=
    match get key symbolStats with
    | Some _ => symbolStats
    | None =>
        set key {| Stats.wins := 0; Stats.losses := 0;
                   Stats.totalPnL := num 0 |} symbolStats
    end in
  match get key symbolStats with
  | None => symbolStats
  | Some stats =>
      let stats :=
        if TradeEntry.trade_status trade =? "CLOSED_WIN"
        then {| Stats.wins := S (Stats.wins stats);
                Stats.losses := Stats.losses stats;
                Stats.totalPnL := Stats.totalPnL stats |}
        else {| Stats.wins := Stats.wins stats;
                Stats.losses := S (Stats.losses stats);
                Stats.totalPnL := Stats.totalPnL stats |} in
      set key
          {| Stats.wins := Stats.wins stats;
             Stats.losses := Stats.losses stats;
             Stats.totalPnL :=
               (Stats.totalPnL stats
                + or_zero (TradeEntry.actual_return_pct trade))%Qc |}
          symbolStats
  end.

Definition symbolStats (trades : list TradeEntry.t) : Obj Stats.t :=
  fold_left symbol_step (filter not_open trades) [].

(** The callback of the final [map]. *)
Definition symbol_stat (entry : string * Stats.t) : SymbolStat.t :=
  let '(symbol, stats) := entry in
  {| SymbolStat.symbol := symbol;
     SymbolStat.wins := Stats.wins stats;
     SymbolStat.losses := Stats.losses stats;
     SymbolStat.totalPnL := Stats.totalPnL stats;
     SymbolStat.total := Stats.wins stats + Stats.losses stats;
     SymbolStat.winRate :=
       match Stats.total stats with
       | Some total =>
           if gt0 total
           then ((nat_num (Stats.wins stats) / total) * num 100)%Qc
           else num 0
       | None => num 0
       end |}.

Definition symbolPerformance (trades : list TradeEntry.t)
  : list SymbolStat.t :=
  map symbol_stat (Object_entries (symbolStats trades)).

(** [t.trade_status !== 'OPEN' && t.exit_timestamp] *)
Definition has_exit (trade : TradeEntry.t) : bool :=
  not_open trade && truthy_str (TradeEntry.exit_timestamp trade).

Section WithDate.
Context `{DateApi}.

(** [new Date(trade.exit_timestamp!).toDateString()]; the date of
    [undefined] is invalid. *)
Definition exit_day (trade : TradeEntry.t) : string :=
  match TradeEntry.exit_timestamp trade with
  | Some s => toDateString s
  | None => "Invalid Date"
  end.

(** One step of the [forEach] that fills [dailyStats]. *)
Definition daily_step (dailyStats : Obj number) (trade : TradeEntry.t)
  : Obj number :=
  let date := exit_day trade in
  let dailyStats :=
    if truthy_opt (get date dailyStats) then dailyStats
    else set date (num 0) dailyStats in
  match get date dailyStats with
  | None => dailyStats
  | Some sum =>
      set date
          (sum + or_zero (TradeEntry.actual_return_pct trade))%Qc
          dailyStats
  end.

Definition dailyStats (trades : list TradeEntry.t) : Obj number :=
  fold_left daily_step (filter has_exit trades) [].

Definition daily_entry (entry : string * number) : DailyPnL.t :=
  {| DailyPnL.date := fst entry; DailyPnL.pnl := snd entry |}.

(** The comparison function of the daily series' sort. *)
Definition by_date (a b : DailyPnL.t) : option Z :=
  time_diff (getTime (DailyPnL.date a)) (getTime (DailyPnL.date b)).

Definition dailyPnL (trades : list TradeEntry.t) : list DailyPnL.t :=
  Array_sort by_date (map daily_entry (Object_entries (dailyStats trades))).
End WithDate.

Definition roeDistribution (trades : list TradeEntry.t) : list Slice.t :=
  let closedTrades := filter not_open trades in
  let wins :=
    List.length (filter (fun t => TradeEntry.trade_status t =? "CLOSED_WIN")
                   closedTrades) in
  let losses :=
    List.length (filter (fun t => TradeEntry.trade_status t =? "CLOSED_LOSS")
                   closedTrades) in
  [ {| Slice.name := "Wins"; Slice.value := wins;
       Slice.color := "hsl(var(--profit))" |};
    {| Slice.name := "Losses"; Slice.value := losses;
       Slice.color := "hsl(var(--loss))" |} ].

End PerformanceChart.

(** ** The component over a store

    The same four computations with the objects and arrays they touch laid
    out in a store, to state what they leave alone.  The [trades] array
    holds references to the trade objects; [filter] allocates a new array
    of the references that pass; [sort] reorders the array it is called on,
    in place, and returns it; reading an element follows its reference.
    The arrays and objects a computation builds for its result are handed
    back as values. *)

Module Memory.

Import Js Api PerformanceChart.

Definition ref : Type := nat.

Record store : Type :=
  { trade_objects : list TradeEntry.t;
    metrics_objects : list PerformanceMetrics.t;
    arrays : list (list ref) }.

(** Computations that read and write the store; [None] is a reference
    to nothing. *)
Definition M (A : Type) : Type := store -> option (A * store).

Definition ret {A} (a : A) : M A := fun s => Some (a, s).

Definition bind {A B} (m : M A) (f : A -> M B) : M B :=
  fun s =>
    match m s with
    | Some (a, s') => f a s'
    | None => None
    end.

Notation "x <- m ;; k" := (bind m (fun x => k))
  (at level 61, m at next level, right associativity).

Definition load_trade (r : ref) : M TradeEntry.t :=
  fun s => option_map (fun o => (o, s)) (nth_error (trade_objects s) r).

Definition load_metrics (r : ref) : M PerformanceMetrics.t :=
  fun s => option_map (fun o => (o, s)) (nth_error (metrics_objects s) r).

Definition load_array (a : ref) : M (list ref) :=
  fun s => option_map (fun l => (l, s)) (nth_error (arrays s) a).

Fixpoint load_trades (rs : list ref) : M (list TradeEntry.t) :=
  match rs with
  | [] => ret []
  | r :: rs' =>
      o <- load_trade r ;;
      os <- load_trades rs' ;;
      ret (o :: os)
  end.

(** The elements of an array, each reference followed. *)
Definition elements (a : ref) : M (list TradeEntry.t) :=
  rs <- load_array a ;;
  load_trades rs.

Definition new_array (l : list ref) : M ref :=
  fun s =>
    Some (List.length (arrays s),
          {| trade_objects := trade_objects s;
             metrics_objects := metrics_objects s;
             arrays := arrays s ++ [l] |}).

Fixpoint replace_nth {A} (n : nat) (x : A) (l : list A) : list A :=
  match l, n with
  | [], _ => []
  | _ :: l', O => x :: l'
  | y :: l', S n' => y :: replace_nth n' x l'
  end.

Definition write_array (a : ref) (l : list ref) : M unit :=
  fun s =>
    if (a <? List.length (arrays s))%nat
    then Some (tt,
               {| trade_objects := trade_objects s;
                  metrics_objects := metrics_objects s;
                  arrays := replace_nth a l (arrays s) |})
    else None.

(** [a.filter(f)]: a new array of the references whose objects pass. *)
Definition Array_filter (a : ref) (f : TradeEntry.t -> bool) : M ref :=
  rs <- load_array a ;;
  os <- load_trades rs ;;
  new_array (map fst (filter (fun e => f (snd e)) (combine rs os))).

(** [a.sort(comparefn)]: the array [a] itself reordered, and returned. *)
Definition Array_sort_in_place (a : ref)
           (comparefn : TradeEntry.t -> TradeEntry.t -> option Z) : M ref :=
  rs <- load_array a ;;
  os <- load_trades rs ;;
  _ <- write_array a
         (map fst (Array_sort (fun x y => comparefn (snd x) (snd y))
                              (combine rs os))) ;;
  ret a.

Section WithDate.
Context `{DateApi}.

Definition equityCurve (trades : ref) (performance : option ref)
  : M (list EquityPoint.t) :=
  ts <- load_array trades ;;
  match performance with
  | None => ret []
  | Some performance =>
      if (List.length ts =? 0)%nat then ret []
      else
        p <- load_metrics performance ;;
        let balance := start_balance p in
        filtered <- Array_filter trades not_open ;;
        closedTrades <- Array_sort_in_place filtered by_timestamp ;;
        closed <- elements closedTrades ;;
        ret (start_point balance :: replay balance 0 closed)
  end.

Definition dailyPnL (trades : ref) : M (list DailyPnL.t) :=
  filtered <- Array_filter trades has_exit ;;
  exited <- elements filtered ;;
  ret (Array_sort by_date
         (map daily_entry
              (Object_entries (fold_left daily_step exited [])))).
End WithDate.

Definition symbolPerformance (trades : ref) : M (list SymbolStat.t) :=
  filtered <- Array_filter trades not_open ;;
  closed <- elements filtered ;;
  ret (map symbol_stat (Object_entries (fold_left symbol_step closed []))).

Definition roeDistribution (trades : ref) : M (list Slice.t) :=
  closedTrades <- Array_filter trades not_open ;;
  won <- Array_filter closedTrades
           (fun t => TradeEntry.trade_status t =? "CLOSED_WIN") ;;
  wins <- load_array won ;;
  lost <- Array_filter closedTrades
            (fun t => TradeEntry.trade_status t =? "CLOSED_LOSS") ;;
  losses <- load_array lost ;;
  ret [ {| Slice.name := "Wins"; Slice.value := List.length wins;
           Slice.color := "hsl(var(--profit))" |};
        {| Slice.name := "Losses"; Slice.value := List.length losses;
           Slice.color := "hsl(var(--loss))" |} ].

(** The objects and the arrays of [before] are in [after] as they were:
    every trade object and metrics object with all its properties, and
    every array with its length and the order of its elements. *)
Definition preserved (before after : store) : Prop :=
  trade_objects after = trade_objects before
  /\ metrics_objects after = metrics_objects before
  /\ forall a : ref,
      (a < List.length (arrays before))%nat ->
      nth_error (arrays after) a = nth_error (arrays before) a.

(** A store that differs from [s] by one more array. *)
Definition extended (s : store) (l : list ref) : store :=
  {| trade_objects := trade_objects s;
     metrics_objects := metrics_objects s;
     arrays := arrays s ++ [l] |}.

(** The objects the references of a list point at. *)
Fixpoint deref (objects : list TradeEntry.t) (rs : list ref)
  : option (list TradeEntry.t) :=
  match rs with
  | [] => Some []
  | r :: rs' =>
      match nth_error objects r, deref objects rs' with
      | Some o, Some os => Some (o :: os)
      | _, _ => None
      end
  end.

(** The caller's view of the inputs: the trade objects of the array
    [trades], in order, and the metrics object, if any. *)
Definition trades_of (s : store) (trades : ref) : option (list TradeEntry.t) :=
  match nth_error (arrays s) trades with
  | Some rs => deref (trade_objects s) rs
  | None => None
  end.

Definition metrics_of (s : store) (performance : option ref)
  : option (option PerformanceMetrics.t) :=
  match performance with
  | None => Some None
  | Some r => option_map Some (nth_error (metrics_objects s) r)
  end.

End Memory.

(** ** A concrete [Date]

    An instance of the [Date] interface for a process whose local time zone
    is UTC.  It reads the ISO-8601 forms [YYYY-MM-DD],
    [YYYY-MM-DDTHH:mm:ss] and [YYYY-MM-DDTHH:mm:ss.sss], each date-time
    with an optional [Z], and the form [toDateString] prints
    ([Www Mmm DD YYYY]); every other string is an invalid date here. *)

Module UtcDate.

Import Js.
Local Open Scope Z_scope.

Definition msPerDay : Z := 86400000.

Definition leap_year (y : Z) : bool :=
  ((y mod 4 =? 0) && negb (y mod 100 =? 0)) || (y mod 400 =? 0).

Definition days_in_month (y m : Z) : Z :=
  if m =? 2 then (if leap_year y then 29 else 28)
  else if (m =? 4) || (m =? 6) || (m =? 9) || (m =? 11) then 30
  else 31.

(** Days from 1970-01-01 to the civil date [y]-[m]-[d]. *)
Definition days_from_civil (y m d : Z) : Z :=
  let y := if m <=? 2 then y - 1 else y in
  let era := y / 400 in
  let yoe := y - era * 400 in
  let mp := (m + 9) mod 12 in
  let doy := (153 * mp + 2) / 5 + d - 1 in
  let doe := yoe * 365 + yoe / 4 - yoe / 100 + doy in
  era * 146097 + doe - 719468.

(** The civil date (year, month, day of month) of a day number. *)
Definition civil_from_days (z : Z) : Z * Z * Z :=
  let z := z + 719468 in
  let era := z / 146097 in
  let doe := z - era * 146097 in
  let yoe := (doe - doe / 1460 + doe / 36524 - doe / 146096) / 365 in
  let y := yoe + era * 400 in
  let doy := doe - (365 * yoe + yoe / 4 - yoe / 100) in
  let mp := (5 * doy + 2) / 153 in
  let d := doy - (153 * mp + 2) / 5 + 1 in
  let m := if mp <? 10 then mp + 3 else mp - 9 in
  (if m <=? 2 then y + 1 else y, m, d).

Definition weekday_names : list string :=
  ["Sun"; "Mon"; "Tue"; "Wed"; "Thu"; "Fri"; "Sat"]%string.

Definition month_names : list string :=
  ["Jan"; "Feb"; "Mar"; "Apr"; "May"; "Jun";
   "Jul"; "Aug"; "Sep"; "Oct"; "Nov"; "Dec"]%string.

Definition string_of_Z (z : Z) : string := string_of_nat (Z.to_nat z).

Fixpoint zeros (n : nat) : string :=
  match n with
  | O => ""%string
  | S n' => String "0" (zeros n')
  end.

(** [ToZeroPaddedDecimalString]. *)
Definition padded (width : nat) (z : Z) : string :=
  let digits := string_of_Z z in
  (zeros (width - String.length digits) ++ digits)%string.

Definition DateString (t : Z) : string :=
  let day := t / msPerDay in
  let '(y, m, d) := civil_from_days day in
  let weekday := nth (Z.to_nat ((day + 4) mod 7)) weekday_names ""%string in
  let month := nth (Z.to_nat (m - 1)) month_names ""%string in
  let yearSign := if y <? 0 then "-"%string else ""%string in
  (weekday ++ " " ++ month ++ " " ++ padded 2 d ++ " "
   ++ yearSign ++ padded 4 (Z.abs y))%string.

(** The [n] digits of [s] from position [i]. *)
Definition field (i n : nat) (s : string) : option Z :=
  let part := substring i n s in
  if (String.length part =? n)%nat
  then option_map Z.of_N (digits_from 0 part)
  else None.

Definition char_is (i : nat) (c : ascii) (s : string) : bool :=
  match String.get i s with
  | Some c' => (c' =? c)%char
  | None => false
  end.

Fixpoint index_of (name : string) (names : list string) : option Z :=
  match names with
  | [] => None
  | n :: names' =>
      if (n =? name)%string then Some 0
      else option_map Z.succ (index_of name names')
  end.

Definition valid_date (y m d : Z) : bool :=
  (1 <=? m) && (m <=? 12) && (1 <=? d) && (d <=? days_in_month y m).

(** What may follow the seconds: nothing, [Z], [.sss] or [.sssZ]. *)
Definition parse_tail (s : string) : option Z :=
  if ((s =? "") || (s =? "Z"))%string then Some 0
  else if char_is 0 "." s
            && ((String.length s =? 4)%nat
                || ((String.length s =? 5)%nat && char_is 4 "Z" s))
       then field 1 3 s
       else None.

Definition parse_iso (s : string) : option Z :=
  match field 0 4 s, field 5 2 s, field 8 2 s with
  | Some y, Some m, Some d =>
      if char_is 4 "-" s && char_is 7 "-" s && valid_date y m d then
        let day := days_from_civil y m d in
        if (String.length s =? 10)%nat then Some (day * msPerDay)
        else
          match field 11 2 s, field 14 2 s, field 17 2 s,
                parse_tail (substring 19 (String.length s - 19) s) with
          | Some h, Some mi, Some sec, Some ms =>
              if char_is 10 "T" s && char_is 13 ":" s && char_is 16 ":" s
                 && (h <=? 23) && (mi <=? 59) && (sec <=? 59)
              then Some (day * msPerDay
                         + h * 3600000 + mi * 60000 + sec * 1000 + ms)
              else None
          | _, _, _, _ => None
          end
      else None
  | _, _, _ => None
  end.

Definition parse_date_string (s : string) : option Z :=
  match index_of (substring 0 3 s) weekday_names,
        index_of (substring 4 3 s) month_names,
        field 8 2 s, field 11 4 s with
  | Some _, Some m, Some d, Some y =>
      if (String.length s =? 15)%nat
         && char_is 3 " " s && char_is 7 " " s && char_is 10 " " s
         && valid_date y (m + 1) d
      then Some (days_from_civil y (m + 1) d * msPerDay)
      else None
  | _, _, _, _ => None
  end.

Definition parse (s : string) : option Z :=
  match parse_iso s with
  | Some t => Some t
  | None => parse_date_string s
  end.

#[export] Instance api : DateApi :=
  {| Js.parse := parse; Js.DateString := DateString |}.

End UtcDate.

(** ** Sample data *)

Module Sample.

Import Js Api PerformanceChart.

(** A trade of the given symbol, open time, status, exit time and
    realized return; the other properties are fixed. *)
Definition trade (id symbol timestamp status : string)
           (exit_timestamp : option string) (ret : option Z)
  : TradeEntry.t :=
  {| TradeEntry.trade_id := id;
     TradeEntry.timestamp := timestamp;
     TradeEntry.symbol := symbol;
     TradeEntry.side := LONG;
     TradeEntry.entry_price := num 100;
     TradeEntry.quantity := num 1;
     TradeEntry.leverage := num 5;
     TradeEntry.risk_pct := num 1;
     TradeEntry.reward_pct := num 2;
     TradeEntry.stop_loss := num 99;
     TradeEntry.take_profit := num 102;
     TradeEntry.current_roe := num 0;
     TradeEntry.drawdown := num 0;
     TradeEntry.max_roe := num 0;
     TradeEntry.trade_status := status;
     TradeEntry.exit_price := option_map (fun _ => num 101) exit_timestamp;
     TradeEntry.exit_timestamp := exit_timestamp;
     TradeEntry.actual_return_pct := option_map num ret;
     TradeEntry.notes := "" |}.

Definition metrics (current_balance total_pnl : Z) : PerformanceMetrics.t :=
  {| PerformanceMetrics.total_trades := num 1;
     PerformanceMetrics.winning_trades := num 1;
     PerformanceMetrics.losing_trades := num 0;
     PerformanceMetrics.win_rate := num 100;
     PerformanceMetrics.avg_win := num 10;
     PerformanceMetrics.avg_loss := num 0;
     PerformanceMetrics.profit_factor := num 0;
     PerformanceMetrics.max_drawdown := num 0;
     PerformanceMetrics.current_balance := num current_balance;
     PerformanceMetrics.total_pnl := num total_pnl;
     PerformanceMetrics.total_pnl_pct := num 10;
     PerformanceMetrics.sharpe_ratio := num 0 |}.

(** The equity-curve scenario: one winning trade of 10% and one open
    trade, on a balance of 11000 of which 1000 is realized profit. *)
Definition win10 : TradeEntry.t :=
  trade "t1" "BTCUSDT" "2024-01-02T10:00:00Z" "CLOSED_WIN"
        (Some "2024-01-02T12:00:00Z") (Some 10%Z).

Definition still_open : TradeEntry.t :=
  trade "t2" "ETHUSDT" "2024-01-03T10:00:00Z" "OPEN" None None.

Definition scenario_trades : list TradeEntry.t := [win10; still_open].

Definition scenario_metrics : PerformanceMetrics.t := metrics 11000 1000.

(** The per-symbol scenario: a win of 5% and a loss of 3% on one symbol. *)
Definition win5 : TradeEntry.t :=
  trade "s1" "BTCUSDT" "2024-01-02T10:00:00Z" "CLOSED_WIN"
        (Some "2024-01-02T12:00:00Z") (Some 5%Z).

Definition loss3 : TradeEntry.t :=
  trade "s2" "BTCUSDT" "2024-01-04T10:00:00Z" "CLOSED_LOSS"
        (Some "2024-01-04T12:00:00Z") (Some (-3)%Z).

Definition symbol_trades : list TradeEntry.t := [win5; loss3].


(** Two closed trades listed against their open times: the second was
    opened first and closed last. *)
Definition opened_later : TradeEntry.t :=
  trade "o2" "ETHUSDT" "2024-01-08T09:00:00Z" "CLOSED_WIN"
        (Some "2024-01-08T10:00:00Z") (Some 4%Z).

Definition opened_earlier : TradeEntry.t :=
  trade "o1" "SOLUSDT" "2024-01-02T09:00:00Z" "CLOSED_LOSS"
        (Some "2024-01-09T10:00:00Z") (Some (-2)%Z).

Definition unordered_trades : list TradeEntry.t :=
  [opened_later; opened_earlier].

(** Closed trades of two days, the later day listed first: Monday
    2024-01-08 and Tuesday 2024-01-02; and a closed trade that carries
    no exit time. *)
Definition monday_win : TradeEntry.t :=
  trade "d1" "BTCUSDT" "2024-01-07T09:00:00Z" "CLOSED_WIN"
        (Some "2024-01-08T10:00:00Z") (Some 4%Z).

Definition tuesday_loss : TradeEntry.t :=
  trade "d2" "ETHUSDT" "2024-01-02T09:00:00Z" "CLOSED_LOSS"
        (Some "2024-01-02T15:00:00Z") (Some (-1)%Z).




(** A closed trade whose two time stamps are not dates. *)
Definition garbled : TradeEntry.t :=
  trade "g1" "ETHUSDT" "not-a-date" "CLOSED_LOSS"
        (Some "not-a-date") (Some (-5)%Z).

(** A store that holds the trades above, the snapshot, and the array
    the component is handed: the two trades listed against their open
    times, an open trade, and the closed trades of two days. *)
Definition sample_store : Memory.store :=
  {| Memory.trade_objects :=
       [opened_later; opened_earlier; still_open; monday_win; tuesday_loss];
     Memory.metrics_objects := [scenario_metrics];
     Memory.arrays := [[0; 1; 2; 3; 4]%nat] |}.

(** A record whose status is none of the three declared ones. *)
Definition cancelled : TradeEntry.t :=
  trade "c1" "BTCUSDT" "2024-01-06T10:00:00Z" "CANCELLED"
        (Some "2024-01-06T10:05:00Z") None.

End Sample.

(** ** Orders on time values

    The vocabulary in which the ordering of the date-ordered views is
    stated: elements carry a time value [key], NaN ([None]) when invalid. *)

Module Order.

Import Js.

Section ByKey.
Context {A : Type}.
Variable key : A -> option Z.



Definition valid (a : A) : Prop := key a <> None.

End ByKey.

End Order.

(** ** The vocabulary of the specification

    Definitions that follow the words of the specification, to be compared
    with what the component computes. *)

Module Spec.

Import Js Api PerformanceChart.

(** The realized return of a trade, an absent one counting as 0. *)
Definition realized_return (trade : TradeEntry.t) : number :=
  match TradeEntry.actual_return_pct trade with
  | Some r => r
  | None => num 0
  end.


(** The trade's open/record time value. *)
Definition open_time `{DateApi} (trade : TradeEntry.t) : option Z :=
  getTime (TradeEntry.timestamp trade).

(** The chronological value of a day of the daily series. *)
Definition day_time `{DateApi} (entry : DailyPnL.t) : option Z :=
  getTime (DailyPnL.date entry).


Definition is_win (trade : TradeEntry.t) : bool :=
  TradeEntry.trade_status trade =? "CLOSED_WIN".

Definition is_loss (trade : TradeEntry.t) : bool :=
  TradeEntry.trade_status trade =? "CLOSED_LOSS".

(** The trade is closed, carries an exit time stamp and falls on the
    calendar day [day]. *)
Definition closed_on `{DateApi} (day : string) (trade : TradeEntry.t)
  : bool :=
  has_exit trade && (exit_day trade =? day).

(** The reading of the malformed-time-stamp rule: the curve has points
    only for the closed trades whose open time stamp is a date, and no
    entry of the daily series is filed under a date that is none. *)
Definition has_open_time `{DateApi} (trade : TradeEntry.t) : bool :=
  match open_time trade with Some _ => true | None => false end.

Definition curve_excludes_malformed `{DateApi}
           (trades : list TradeEntry.t) (p : PerformanceMetrics.t) : Prop :=
  List.length (equityCurve trades (Some p))
  = S (List.length
         (filter (fun t => not_open t && has_open_time t) trades)).

Definition daily_excludes_malformed `{DateApi}
           (trades : list TradeEntry.t) : Prop :=
  Forall (Order.valid day_time) (dailyPnL trades).

(** The running total of a day, 0 while the day has none. *)
Definition default0 (x : option number) : number :=
  match x with Some v => v | None => num 0 end.

(** The sum of the realized returns of a list of trades. *)
Definition sum_returns (trades : list TradeEntry.t) : number :=
  fold_right (fun t acc => (realized_return t + acc)%Qc) (num 0) trades.

End Spec.

(** ** The component [TraderDashboard]

    The caller of [PerformanceChart]: it splits the trades into the open
    positions and the trade history, and hands the whole list to the
    chart. *)

Module TraderDashboard.

Import Js Api.

Definition openTrades (trades : list TradeEntry.t) : list TradeEntry.t :=
  filter (fun trade => TradeEntry.trade_status trade =? "OPEN") trades.

Definition closedTrades (trades : list TradeEntry.t) : list TradeEntry.t :=
  filter (fun trade => negb (TradeEntry.trade_status trade =? "OPEN")) trades.

(** [openTrades.length > 0 && ...]: the card of the open positions is
    rendered. *)
Definition shows_open_positions (trades : list TradeEntry.t) : bool :=
  (0 <? List.length (openTrades trades))%nat.

End TraderDashboard.

(** ** The component [TechnicalIndicators] *)

Module TechnicalIndicators.

Import Js.

(** [x >= y], [x <= y], [x > y] and [x < y] on numbers. *)
Definition ge (x y : number) : bool := Qle_bool y x.
Definition le (x y : number) : bool := Qle_bool x y.
Definition gt (x y : number) : bool := negb (Qle_bool x y).
Definition lt (x y : number) : bool := negb (Qle_bool y x).

Module Badge.
Record t : Type :=
  { status : string;
    color : string }.
End Badge.

Definition getRSIStatus (rsi : number) : Badge.t :=
  if ge rsi (num 70)
  then {| Badge.status := "Overbought"; Badge.color := "bg-loss text-white" |}
  else if le rsi (num 30)
  then {| Badge.status := "Oversold"; Badge.color := "bg-profit text-white" |}
  else {| Badge.status := "Neutral"; Badge.color := "bg-neutral text-white" |}.

(** The icon component of the badge is left out. *)
Definition getMAStatus (price maShort maLong : number) : Badge.t :=
  if gt maShort maLong && gt price maShort
  then {| Badge.status := "Bullish"; Badge.color := "bg-profit text-white" |}
  else if lt maShort maLong && lt price maShort
  then {| Badge.status := "Bearish"; Badge.color := "bg-loss text-white" |}
  else {| Badge.status := "Neutral"; Badge.color := "bg-neutral text-white" |}.

Definition getBollingerStatus (price upper lower middle : number) : Badge.t :=
  if ge price upper
  then {| Badge.status := "Above Upper"; Badge.color := "bg-loss text-white" |}
  else if le price lower
  then {| Badge.status := "Below Lower";
          Badge.color := "bg-profit text-white" |}
  else if gt price middle
  then {| Badge.status := "Above Middle";
          Badge.color := "bg-warning text-white" |}
  else {| Badge.status := "Below Middle"; Badge.color := "bg-secondary" |}.

End TechnicalIndicators.

(** ** The component [CreateTrader]

    The list of trading symbols of the form.  [trim] and [toUpperCase] are
    the string methods of that name. *)

Module CreateTrader.

Import Js.

Module TraderConfig.
Record t : Type :=
  { name : string;
    initial_balance : number;
    risk_per_trade : number;
    leverage : number;
    cooldown_minutes : number;
    daily_loss_limit : number;
    max_open_trades : number;
    symbols : list string;
    rsi_period : number;
    rsi_overbought : number;
    rsi_oversold : number;
    bollinger_period : number;
    bollinger_std : number;
    ma_short : number;
    ma_long : number;
    volume_threshold : number }.
End TraderConfig.

(** The state of the form that the symbol handlers read and write. *)
Module Form.
Record t : Type :=
  { config : TraderConfig.t;
    newSymbol : string }.
End Form.

(** [{ ...config, symbols }] *)
Definition with_symbols (config : TraderConfig.t) (symbols : list string)
  : TraderConfig.t :=
  {| TraderConfig.name := TraderConfig.name config;
     TraderConfig.initial_balance := TraderConfig.initial_balance config;
     TraderConfig.risk_per_trade := TraderConfig.risk_per_trade config;
     TraderConfig.leverage := TraderConfig.leverage config;
     TraderConfig.cooldown_minutes := TraderConfig.cooldown_minutes config;
     TraderConfig.daily_loss_limit := TraderConfig.daily_loss_limit config;
     TraderConfig.max_open_trades := TraderConfig.max_open_trades config;
     TraderConfig.symbols := symbols;
     TraderConfig.rsi_period := TraderConfig.rsi_period config;
     TraderConfig.rsi_overbought := TraderConfig.rsi_overbought config;
     TraderConfig.rsi_oversold := TraderConfig.rsi_oversold config;
     TraderConfig.bollinger_period := TraderConfig.bollinger_period config;
     TraderConfig.bollinger_std := TraderConfig.bollinger_std config;
     TraderConfig.ma_short := TraderConfig.ma_short config;
     TraderConfig.ma_long := TraderConfig.ma_long config;
     TraderConfig.volume_threshold := TraderConfig.volume_threshold config |}.

(** The configuration the form opens with. *)
Definition initial_config : TraderConfig.t :=
  {| TraderConfig.name := "";
     TraderConfig.initial_balance := num 10000;
     TraderConfig.risk_per_trade := (num 2 / num 100)%Qc;
     TraderConfig.leverage := num 10;
     TraderConfig.cooldown_minutes := num 5;
     TraderConfig.daily_loss_limit := (num 5 / num 100)%Qc;
     TraderConfig.max_open_trades := num 3;
     TraderConfig.symbols := ["BTCUSDT"; "ETHUSDT"];
     TraderConfig.rsi_period := num 14;
     TraderConfig.rsi_overbought := num 70;
     TraderConfig.rsi_oversold := num 30;
     TraderConfig.bollinger_period := num 20;
     TraderConfig.bollinger_std := num 2;
     TraderConfig.ma_short := num 10;
     TraderConfig.ma_long := num 20;
     TraderConfig.volume_threshold := num 1000000 |}.

Definition initial_form : Form.t :=
  {| Form.config := initial_config; Form.newSymbol := "" |}.

(** [symbols.includes(symbol)] *)
Definition includes (symbols : list string) (symbol : string) : bool :=
  existsb (fun s => s =? symbol) symbols.

Section Handlers.
Variable trim : string -> string.
Variable toUpperCase : string -> string.

Definition addSymbol (form : Form.t) : Form.t :=
  let config := Form.config form in
  let newSymbol := Form.newSymbol form in
  if negb (trim newSymbol =? "")
     && negb (includes (TraderConfig.symbols config)
                       (toUpperCase (trim newSymbol)))
  then {| Form.config :=
            with_symbols config
                         (TraderConfig.symbols config
                            ++ [toUpperCase (trim newSymbol)]);
          Form.newSymbol := "" |}
  else form.

Definition removeSymbol (symbol : string) (form : Form.t) : Form.t :=
  {| Form.config :=
       with_symbols (Form.config form)
                    (filter (fun s => negb (s =? symbol))
                            (TraderConfig.symbols (Form.config form)));
     Form.newSymbol := Form.newSymbol form |}.

(** [setNewSymbol(e.target.value)] *)
Definition typeSymbol (text : string) (form : Form.t) : Form.t :=
  {| Form.config := Form.config form; Form.newSymbol := text |}.

(** What the user does to the list of symbols. *)
Inductive action : Type :=
| Type_ (text : string)
| Add
| Remove (symbol : string).

Definition step (form : Form.t) (a : action) : Form.t :=
  match a with
  | Type_ text => typeSymbol text form
  | Add => addSymbol form
  | Remove symbol => removeSymbol symbol form
  end.

End Handlers.

End CreateTrader.

(** ** The page [Index] *)

Module Index.

Import Js.

Module Trader.
Record t : Type :=
  { id : string;
    name : string;
    is_running : bool;
    balance : number;
    daily_pnl : number;
    total_trades : number;
    open_trades : number }.
End Trader.

(** [ToBoolean] of the selection, a string or null. *)
Definition selected_truthy (selectedTrader : option string) : bool :=
  match selectedTrader with
  | Some s => negb (s =? "")
  | None => false
  end.

(** [data.find(t => t.id === selectedTrader)] *)
Definition find_trader (data : list Trader.t) (selectedTrader : option string)
  : option Trader.t :=
  match selectedTrader with
  | Some s => find (fun t => Trader.id t =? s) data
  | None => None
  end.

(** The selection after [loadTraders] has received [data]: [seen] is the
    selection the closure of [loadTraders] reads, [current] the selection
    in the state, which stays when neither branch sets it. *)
Definition selection_after_load (seen current : option string)
           (data : list Trader.t) : option string :=
  let first :=
    if negb (selected_truthy seen) && (0 <? List.length data)%nat
    then match data with
         | t :: _ => Some (Trader.id t)
         | [] => current
         end
    else current in
  if selected_truthy seen
     && match find_trader data seen with Some _ => false | None => true end
  then match data with
       | t :: _ => Some (Trader.id t)
       | [] => None
       end
  else first.

End Index.

(** ** The CSV export of [TraderControls] *)

Module TraderControls.

Import Js.

Definition quote : ascii := ascii_of_nat 34.
Definition comma : ascii := ascii_of_nat 44.
Definition newline : ascii := ascii_of_nat 10.

(** A property value of an exported row: a string, or a value of another
    type (a number, a boolean, null, ...), given by the text
    [Array.prototype.join] renders it as. *)
Inductive value : Type :=
| VString (s : string)
| VOther (text : string).

(** [value.includes(c)] for a one-character string [c]. *)
Fixpoint includes (c : ascii) (s : string) : bool :=
  match s with
  | EmptyString => false
  | String c' s' => (c' =? c)%char || includes c s'
  end.

(** The [value.replace] of the escape: every quote doubled. *)
Fixpoint double_quotes (s : string) : string :=
  match s with
  | EmptyString => EmptyString
  | String c s' =>
      if (c =? quote)%char
      then String quote (String quote (double_quotes s'))
      else String c (double_quotes s')
  end.

(** [Array.prototype.join] on texts. *)
Fixpoint join (sep : string) (l : list string) : string :=
  match l with
  | [] => EmptyString
  | [x] => x
  | x :: l' => (x ++ sep ++ join sep l')%string
  end.

(** The callback of [headers.map]: the text of [row[header]] in the
    line; a missing property is [undefined], which joins as the empty
    text. *)
Definition cell (v : option value) : string :=
  match v with
  | Some (VString s) =>
      if includes comma s || includes quote s
      then (String quote (double_quotes s) ++ String quote EmptyString)%string
      else s
  | Some (VOther text) => text
  | None => EmptyString
  end.

Definition Object_keys {V} (o : Obj V) : list string :=
  map fst (Object_entries o).

Definition row_line (headers : list string) (row : Obj value) : string :=
  join (String comma EmptyString) (map (fun header => cell (get header row)) headers).

Definition convertToCSV (data : list (Obj value)) : string :=
  match data with
  | [] => EmptyString
  | first :: _ =>
      let headers := Object_keys first in
      join (String newline EmptyString)
           (join (String comma EmptyString) headers
              :: map (row_line headers) data)
  end.

End TraderControls.

(** ** Reading CSV

    A reader of comma-separated values after RFC 4180, to read back what
    the export writes: fields are separated by commas and records by line
    feeds; a field that starts with a quote runs to its closing quote, a
    doubled quote inside standing for one. *)

Module CsvReader.

Import TraderControls.

Inductive mode : Type := Start | Plain | Quoted | QuoteSeen.

Definition snoc (s : string) (c : ascii) : string :=
  (s ++ String c EmptyString)%string.

(** [records m cur row s]: the records of [s], read in mode [m] with
    the field [cur] and the record [row] under way. *)
Fixpoint records (m : mode) (cur : string) (row : list string) (s : string)
  : list (list string) :=
  match s with
  | EmptyString => [row ++ [cur]]
  | String c r =>
      match m with
      | Quoted =>
          if (c =? quote)%char then records QuoteSeen cur row r
          else records Quoted (snoc cur c) row r
      | Start =>
          if (c =? quote)%char then records Quoted EmptyString row r
          else if (c =? comma)%char
          then records Start EmptyString (row ++ [cur]) r
          else if (c =? newline)%char
          then (row ++ [cur]) :: records Start EmptyString [] r
          else records Plain (snoc cur c) row r
      | Plain =>
          if (c =? comma)%char
          then records Start EmptyString (row ++ [cur]) r
          else if (c =? newline)%char
          then (row ++ [cur]) :: records Start EmptyString [] r
          else records Plain (snoc cur c) row r
      | QuoteSeen =>
          if (c =? quote)%char then records Quoted (snoc cur quote) row r
          else if (c =? comma)%char
          then records Start EmptyString (row ++ [cur]) r
          else if (c =? newline)%char
          then (row ++ [cur]) :: records Start EmptyString [] r
          else records Plain (snoc cur c) row r
      end
  end.

Definition read (s : string) : list (list string) :=
  records Start EmptyString [] s.

(** What follows a field: the end of the text, a comma and more of the
    record, or a line feed and more records. *)
Inductive rest : Type :=
| End_
| Comma (more : string)
| Newline (more : string).






End CsvReader.

(** ** More sample data *)

Module MoreSamples.

Import Js TraderControls CreateTrader Index.



(** A row with a note of two lines. *)
Definition two_lines : string :=
  ("entry" ++ String newline "exit")%string.

Definition multiline_rows : list (Obj value) :=
  [ [("notes", VString two_lines)] ].

(** A form in which the user has typed a symbol. *)
Definition typed_form : Form.t :=
  {| Form.config := initial_config; Form.newSymbol := " solusdt " |}.

(** The string methods [trim] and [toUpperCase] on ASCII texts. *)
Definition is_space (c : ascii) : bool :=
  let n := nat_of_ascii c in
  ((n =? 32) || ((9 <=? n) && (n <=? 13)))%nat.

Fixpoint trim_start (s : string) : string :=
  match s with
  | EmptyString => EmptyString
  | String c r => if is_space c then trim_start r else s
  end.

Fixpoint trim_end (s : string) : string :=
  match s with
  | EmptyString => EmptyString
  | String c r =>
      let r' := trim_end r in
      if is_space c && (r' =? "") then EmptyString else String c r'
  end.

Definition ascii_trim (s : string) : string := trim_end (trim_start s).

Definition upper (c : ascii) : ascii :=
  let n := nat_of_ascii c in
  if ((97 <=? n) && (n <=? 122))%nat then ascii_of_nat (n - 32) else c.

Fixpoint ascii_upper (s : string) : string :=
  match s with
  | EmptyString => EmptyString
  | String c r => String (upper c) (ascii_upper r)
  end.

Definition trader (id : string) : Trader.t :=
  {| Trader.id := id;
     Trader.name := id;
     Trader.is_running := true;
     Trader.balance := num 10000;
     Trader.daily_pnl := num 0;
     Trader.total_trades := num 0;
     Trader.open_trades := num 0 |}.

End MoreSamples.

(** ** Vocabulary for the further properties *)

Module Derived.

Import Js Api PerformanceChart Spec.

(** The closed trades of one symbol. *)
Definition of_symbol (symbol : string) (trade : TradeEntry.t) : bool :=
  not_open trade && (TradeEntry.symbol trade =? symbol).

(** A closed record that is not a win: a loss, or a record of a status
    outside the three declared ones. *)
Definition not_won (trade : TradeEntry.t) : bool := negb (is_win trade).


(** The statistics of a symbol before its first closed trade, and after
    one more. *)
Definition zero_stats : Stats.t :=
  {| Stats.wins := 0; Stats.losses := 0; Stats.totalPnL := num 0 |}.

Definition bump (stats : Stats.t) (trade : TradeEntry.t) : Stats.t :=
  {| Stats.wins :=
       if is_win trade then S (Stats.wins stats) else Stats.wins stats;
     Stats.losses :=
       if is_win trade then Stats.losses stats else S (Stats.losses stats);
     Stats.totalPnL := (Stats.totalPnL stats + realized_return trade)%Qc |}.


(** The total of [f] over a list, in a monoid [(op, e)]. *)
Definition total {A M : Type} (op : M -> M -> M) (e : M) (f : A -> M)
           (l : list A) : M :=
  fold_right (fun x acc => op (f x) acc) e l.



(** The RSI readings from low to high. *)
Definition rsi_rank (status : string) : nat :=
  if status =? "Oversold" then 0
  else if status =? "Neutral" then 1
  else 2.

(** The labels of a curve of [n] trades. *)
Definition labels (n : nat) : list string :=
  "Start" :: map (fun i => ("Trade " ++ string_of_nat i)%string) (seq 1 n).

End Derived.

(** * Properties *)

(** ** Facts about the built-ins *)

Module JsFacts.

Import Js Order.

Lemma Qc_this_eq (x y : Qc) : this x = this y -> x = y.
Proof. intro E. apply Qc_is_canon. rewrite E. reflexivity. Qed.

Lemma truthy_false (x : number) : truthy x = false <-> x = num 0.
Proof.
  unfold truthy. rewrite negb_false_iff, Qeq_bool_iff. split.
  - intro E. apply Qc_is_canon. rewrite E. reflexivity.
  - intros ->. reflexivity.
Qed.

Lemma num_0 : num 0 = 0%Qc.
Proof. apply Qc_this_eq. reflexivity. Qed.

(** Equations between evaluated structures that hold rationals. *)
Ltac qc_eq :=
  repeat match goal with
         | |- @eq Qc _ _ => apply Qc_this_eq; vm_compute; reflexivity
         | |- @eq number _ _ => apply Qc_this_eq; vm_compute; reflexivity
         | |- _ => reflexivity
         | |- _ => progress f_equal
         end.

Lemma or_zero_spec (x : option number) :
  or_zero x = match x with Some v => v | None => num 0 end.
Proof.
  destruct x as [v|]; simpl; [|reflexivity].
  destruct (truthy v) eqn:E; [reflexivity|].
  symmetry. now apply truthy_false.
Qed.

Section SortFacts.
Context {A : Type}.
Variable comparefn : A -> A -> option Z.

Lemma insert_perm (x : A) (l : list A) :
  Permutation (insert comparefn x l) (x :: l).
Proof.
  induction l as [|y l IH]; simpl.
  - apply Permutation_refl.
  - destruct (SortCompare comparefn x y <=? 0)%Z.
    + apply Permutation_refl.
    + eapply perm_trans; [apply perm_skip, IH | apply perm_swap].
Qed.

Lemma Array_sort_perm (l : list A) : Permutation (Array_sort comparefn l) l.
Proof.
  induction l as [|x l IH]; simpl.
  - apply perm_nil.
  - eapply perm_trans; [apply insert_perm | apply perm_skip, IH].
Qed.

Lemma Array_sort_length (l : list A) :
  List.length (Array_sort comparefn l) = List.length l.
Proof. apply Permutation_length, Array_sort_perm. Qed.

Lemma Array_sort_In (l : list A) (x : A) :
  In x (Array_sort comparefn l) <-> In x l.
Proof.
  split; apply Permutation_in;
    [apply Array_sort_perm | apply Permutation_sym, Array_sort_perm].
Qed.

Lemma Array_sort_single (x : A) : Array_sort comparefn [x] = [x].
Proof. reflexivity. Qed.
End SortFacts.

(** Sorting by a time value: the comparison function is the difference
    of the two elements' time values, NaN when either is invalid. *)
Section SortByKey.
Context {A : Type}.
Variable key : A -> option Z.








End SortByKey.

Section ObjFacts.
Context {V : Type}.
Implicit Types (o : Obj V) (k : string) (v : V).

Lemma get_set_eq k v o : get k (set k v o) = Some v.
Proof.
  induction o as [|[k' v'] o IH]; simpl.
  - now rewrite String.eqb_refl.
  - destruct (k' =? k) eqn:E; simpl; now rewrite E.
Qed.

Lemma get_set_neq k k' v o : k' <> k -> get k (set k' v o) = get k o.
Proof.
  intro Hne. induction o as [|[k0 v0] o IH]; simpl.
  - apply String.eqb_neq in Hne. now rewrite Hne.
  - destruct (k0 =? k') eqn:E; simpl.
    + apply String.eqb_eq in E. subst k0.
      apply String.eqb_neq in Hne. now rewrite Hne.
    + now rewrite IH.
Qed.

Lemma get_None k o : get k o = None <-> ~ In k (map fst o).
Proof.
  induction o as [|[k' v'] o IH]; simpl.
  - tauto.
  - destruct (k' =? k) eqn:E.
    + apply String.eqb_eq in E. split; [discriminate|tauto].
    + apply String.eqb_neq in E. tauto.
Qed.

Lemma keys_set k v o :
  map fst (set k v o)
  = match get k o with
    | Some _ => map fst o
    | None => map fst o ++ [k]
    end.
Proof.
  induction o as [|[k' v'] o IH]; simpl; [reflexivity|].
  destruct (k' =? k) eqn:E; simpl; [reflexivity|].
  rewrite IH. now destruct (get k o).
Qed.

Lemma NoDup_set k v o : NoDup (map fst o) -> NoDup (map fst (set k v o)).
Proof.
  intro Hn. rewrite keys_set. destruct (get k o) eqn:E; [assumption|].
  apply get_None in E.
  apply (Permutation_NoDup (l := k :: map fst o)).
  - change (k :: map fst o) with ([k] ++ map fst o).
    apply Permutation_app_comm.
  - now constructor.
Qed.

Lemma In_get k v o : NoDup (map fst o) -> In (k, v) o <-> get k o = Some v.
Proof.
  induction o as [|[k' v'] o IH]; simpl; intro Hn.
  - split; [tauto|discriminate].
  - inversion Hn as [|? ? Hk Hn']; subst.
    destruct (k' =? k) eqn:E.
    + apply String.eqb_eq in E. subst k'. split.
      * intros [Heq|Hin]; [congruence|].
        exfalso. apply Hk. apply (in_map fst) in Hin. exact Hin.
      * intros [= ->]. now left.
    + apply String.eqb_neq in E. rewrite <- (IH Hn'). split.
      * intros [Heq|Hin]; [congruence|assumption].
      * now right.
Qed.

Lemma filter_partition (f : string * V -> bool) (l : list (string * V)) :
  Permutation (filter f l ++ filter (fun e => negb (f e)) l) l.
Proof.
  induction l as [|e l IH]; simpl; [constructor|].
  destruct (f e); simpl.
  - now constructor.
  - eapply perm_trans; [apply Permutation_sym, Permutation_middle|].
    now constructor.
Qed.

Lemma Object_entries_perm o : Permutation (Object_entries o) o.
Proof.
  unfold Object_entries.
  eapply perm_trans; [|apply (filter_partition is_index)].
  apply Permutation_app_tail, Array_sort_perm.
Qed.

Lemma Object_entries_In o (e : string * V) :
  In e (Object_entries o) <-> In e o.
Proof.
  split; apply Permutation_in;
    [apply Object_entries_perm
    | apply Permutation_sym, Object_entries_perm].
Qed.
End ObjFacts.

End JsFacts.

(** ** The equity curve *)

Module EquityCurve.

Import Js Order Api PerformanceChart Spec JsFacts Sample.



Section WithDate.
Context `{DateApi}.


Lemma closedTrades_perm (trades : list TradeEntry.t) :
  Permutation (closedTrades trades) (filter not_open trades).
Proof. apply Array_sort_perm. Qed.

Lemma equityCurve_cons (t : TradeEntry.t) (trades : list TradeEntry.t)
      (p : PerformanceMetrics.t) :
  equityCurve (t :: trades) (Some p)
  = start_point (start_balance p)
      :: replay (start_balance p) 0 (closedTrades (t :: trades)).
Proof. reflexivity. Qed.

Lemma replay_length (closed : list TradeEntry.t) :
  forall balance index,
    List.length (replay balance index closed) = List.length closed.
Proof.
  induction closed as [|t l IH]; intros; simpl; [reflexivity|].
  now rewrite IH.
Qed.

End WithDate.



Lemma curve_length_cons (api : DateApi) (t : TradeEntry.t)
      (trades : list TradeEntry.t) (p : PerformanceMetrics.t) :
  List.length (equityCurve (t :: trades) (Some p))
  = S (List.length (filter not_open (t :: trades))).
Proof.
  rewrite equityCurve_cons. cbn [List.length]. rewrite replay_length.
  unfold closedTrades. now rewrite Array_sort_length.
Qed.

(** C3: the curve is empty when the trades list is empty or the snapshot
    is absent; otherwise it has one point more than there are trades
    whose status is not OPEN. *)
Theorem equityCurve_length (api : DateApi) :
  (forall p : option PerformanceMetrics.t, equityCurve [] p = [])
  /\ (forall trades : list TradeEntry.t, equityCurve trades None = [])
  /\ (forall (t : TradeEntry.t) (trades : list TradeEntry.t)
             (p : PerformanceMetrics.t),
         List.length (equityCurve (t :: trades) (Some p))
         = (1 + List.length (filter not_open (t :: trades)))%nat).
Proof.
  repeat split.
  - now intros [p|].
  - intros t trades p. apply curve_length_cons.
Qed.



(** The trade opened first is replayed first although it was listed
    last and closed last. *)
Example equityCurve_orders_by_open_time :
  map EquityPoint.symbol
      (equityCurve (H := UtcDate.api) unordered_trades
                   (Some scenario_metrics))
  = [None; Some "SOLUSDT"; Some "ETHUSDT"].
Proof. reflexivity. Qed.





End EquityCurve.

(** ** The win/loss distribution *)

Module Distribution.

Import Js Api PerformanceChart Spec Sample.

Lemma filter_closed (f : TradeEntry.t -> bool) (trades : list TradeEntry.t) :
  (forall t, f t = true -> not_open t = true) ->
  filter f (filter not_open trades) = filter f trades.
Proof.
  intro Hf. induction trades as [|t l IH]; [reflexivity|].
  cbn [filter]. destruct (not_open t) eqn:E.
  - cbn [filter]. now rewrite IH.
  - rewrite IH. destruct (f t) eqn:F; [|reflexivity].
    apply Hf in F. congruence.
Qed.

Lemma is_win_closed (t : TradeEntry.t) : is_win t = true -> not_open t = true.
Proof.
  unfold is_win, not_open. intro E. apply String.eqb_eq in E.
  now rewrite E.
Qed.

Lemma is_loss_closed (t : TradeEntry.t) :
  is_loss t = true -> not_open t = true.
Proof.
  unfold is_loss, not_open. intro E. apply String.eqb_eq in E.
  now rewrite E.
Qed.

Lemma win_loss_exclusive (t : TradeEntry.t) :
  is_win t = true -> is_loss t = false.
Proof.
  unfold is_win, is_loss. intro E. apply String.eqb_eq in E.
  now rewrite E.
Qed.

Lemma roeDistribution_eq (trades : list TradeEntry.t) :
  roeDistribution trades
  = [ {| Slice.name := "Wins";
         Slice.value := List.length (filter is_win trades);
         Slice.color := "hsl(var(--profit))" |};
      {| Slice.name := "Losses";
         Slice.value := List.length (filter is_loss trades);
         Slice.color := "hsl(var(--loss))" |} ].
Proof.
  unfold roeDistribution.
  change (fun t => TradeEntry.trade_status t =? "CLOSED_WIN") with is_win.
  change (fun t => TradeEntry.trade_status t =? "CLOSED_LOSS") with is_loss.
  rewrite (filter_closed is_win), (filter_closed is_loss);
    auto using is_win_closed, is_loss_closed.
Qed.

(** C6: the Wins count is the number of trades with status CLOSED_WIN,
    the Losses count the number with status CLOSED_LOSS; the two sum to
    the number of trades with one of these two statuses, and a record of
    any other status changes neither count. *)
Theorem roeDistribution_counts (trades : list TradeEntry.t) :
  map Slice.value (roeDistribution trades)
  = [ List.length (filter is_win trades);
      List.length (filter is_loss trades) ]
  /\ (List.length (filter is_win trades)
      + List.length (filter is_loss trades))%nat
     = List.length (filter (fun t => is_win t || is_loss t) trades)
  /\ (forall (before after : list TradeEntry.t) (other : TradeEntry.t),
        is_win other = false -> is_loss other = false ->
        roeDistribution (before ++ other :: after)
        = roeDistribution (before ++ after)).
Proof.
  repeat split.
  - now rewrite roeDistribution_eq.
  - induction trades as [|t l IH]; [reflexivity|].
    cbn [filter]. destruct (is_win t) eqn:W.
    + rewrite (win_loss_exclusive t W). cbn [orb List.length]. lia.
    + destruct (is_loss t); cbn [orb List.length]; lia.
  - intros before after other W L.
    rewrite !roeDistribution_eq, !filter_app. cbn [filter].
    now rewrite W, L.
Qed.

Lemma roeDistribution_counts_witness :
  roeDistribution ([win5] ++ cancelled :: [loss3])
  = roeDistribution ([win5] ++ [loss3]).
Proof.
  apply (proj2 (proj2 (roeDistribution_counts [])) [win5] [loss3] cancelled);
    reflexivity.
Defined.

(** C10: whatever the trades list, the distribution has exactly two
    entries, 'Wins' first and 'Losses' second; for the empty list both
    counts are 0. *)
Theorem roeDistribution_shape :
  (forall trades : list TradeEntry.t,
      List.length (roeDistribution trades) = 2%nat
      /\ map Slice.name (roeDistribution trades) = ["Wins"; "Losses"])
  /\ map (fun s => (Slice.name s, Slice.value s)) (roeDistribution [])
     = [("Wins", 0%nat); ("Losses", 0%nat)].
Proof. repeat split. Qed.

End Distribution.

(** ** The per-symbol statistics *)

Module SymbolPerformance.

Import Js Api PerformanceChart Spec JsFacts Sample.

(** The win rate of every statistic is 0: the guard reads [total] from
    the accumulator, which has no such property. *)
Lemma symbolPerformance_winRate_zero (trades : list TradeEntry.t)
      (stat : SymbolStat.t) :
  In stat (symbolPerformance trades) -> SymbolStat.winRate stat = num 0.
Proof.
  unfold symbolPerformance. rewrite in_map_iff.
  intros ([symbol stats] & <- & _). reflexivity.
Qed.

Lemma symbolPerformance_total (trades : list TradeEntry.t)
      (stat : SymbolStat.t) :
  In stat (symbolPerformance trades) ->
  SymbolStat.total stat = (SymbolStat.wins stat + SymbolStat.losses stat)%nat.
Proof.
  unfold symbolPerformance. rewrite in_map_iff.
  intros ([symbol stats] & <- & _). reflexivity.
Qed.

(** C2: on one win of 5% and one loss of 3% on the same symbol the
    statistic has wins 1, losses 1, total 2 and total P&L 2, but the win
    rate 0, where [wins / total * 100] is 50. *)
Theorem symbolPerformance_scenario :
  symbolPerformance symbol_trades
  = [ {| SymbolStat.symbol := "BTCUSDT";
         SymbolStat.wins := 1;
         SymbolStat.losses := 1;
         SymbolStat.totalPnL := num 2;
         SymbolStat.total := 2;
         SymbolStat.winRate := num 0 |} ]
  /\ (nat_num 1 / nat_num 2 * num 100)%Qc = num 50
  /\ num 0 <> num 50.
Proof.
  split; [|split].
  - vm_compute. qc_eq.
  - qc_eq.
  - intro E. apply (f_equal this) in E. discriminate E.
Qed.

End SymbolPerformance.

(** ** The daily P&L series *)

Module Daily.

Import Js Order Api PerformanceChart Spec JsFacts Sample.

Section WithDate.
Context `{DateApi}.

Lemma daily_step_get (o : Obj number) (t : TradeEntry.t) (k : string) :
  get k (daily_step o t)
  = if exit_day t =? k
    then Some (default0 (get (exit_day t) o) + realized_return t)%Qc
    else get k o.
Proof.
  unfold daily_step. fold (realized_return t).
  rewrite or_zero_spec. fold (realized_return t).
  set (d := exit_day t).
  assert (E0 : exists o1,
             (if truthy_opt (get d o) then o else set d (num 0) o) = o1
             /\ get d o1 = Some (default0 (get d o))
             /\ forall k', d <> k' -> get k' o1 = get k' o).
  { destruct (truthy_opt (get d o)) eqn:T.
    - exists o. destruct (get d o); [auto|discriminate T].
    - exists (set d (num 0) o). repeat split.
      + rewrite get_set_eq. destruct (get d o) as [v|]; [|reflexivity].
        simpl in T. apply truthy_false in T. now subst v.
      + intros k' Hk. now apply get_set_neq. }
  destruct E0 as (o1 & -> & Hd & Hk). rewrite Hd.
  destruct (d =? k) eqn:E.
  - apply String.eqb_eq in E. subst k. apply get_set_eq.
  - apply String.eqb_neq in E. rewrite get_set_neq by assumption.
    now apply Hk.
Qed.

Lemma daily_step_NoDup (o : Obj number) (t : TradeEntry.t) :
  NoDup (map fst o) -> NoDup (map fst (daily_step o t)).
Proof.
  intro Hn. unfold daily_step.
  set (o1 := if truthy_opt (get (exit_day t) o) then o
             else set (exit_day t) (num 0) o).
  assert (Hn1 : NoDup (map fst o1)).
  { subst o1. destruct (truthy_opt _); [assumption|now apply NoDup_set]. }
  destruct (get (exit_day t) o1); [now apply NoDup_set|assumption].
Qed.

Lemma fold_daily_NoDup (l : list TradeEntry.t) :
  forall o, NoDup (map fst o) -> NoDup (map fst (fold_left daily_step l o)).
Proof.
  induction l as [|t l IH]; intros o Hn; simpl; [assumption|].
  apply IH. now apply daily_step_NoDup.
Qed.

(** The value under a day after the loop: what was there before plus
    the returns of the day's trades, untouched when the day has none. *)
Lemma fold_daily_get (l : list TradeEntry.t) (k : string) :
  forall o,
    get k (fold_left daily_step l o)
    = match filter (fun t => exit_day t =? k) l with
      | [] => get k o
      | day_trades =>
          Some (default0 (get k o) + sum_returns day_trades)%Qc
      end.
Proof.
  induction l as [|t l IH]; intro o; [reflexivity|].
  cbn [fold_left filter]. rewrite IH, daily_step_get.
  destruct (exit_day t =? k) eqn:E.
  - apply String.eqb_eq in E. rewrite E.
    destruct (filter (fun t0 => exit_day t0 =? k) l) as [|t' l'].
    + f_equal. cbn [sum_returns fold_right default0].
      rewrite num_0. unfold number. ring.
    + f_equal. cbn [default0].
      change (sum_returns (t :: t' :: l'))
        with (realized_return t + sum_returns (t' :: l'))%Qc.
      unfold number. ring.
  - reflexivity.
Qed.


Lemma dailyStats_NoDup (trades : list TradeEntry.t) :
  NoDup (map fst (dailyStats trades)).
Proof. apply fold_daily_NoDup. constructor. Qed.

Lemma dailyPnL_In (trades : list TradeEntry.t) (entry : DailyPnL.t) :
  In entry (dailyPnL trades)
  <-> get (DailyPnL.date entry) (dailyStats trades)
      = Some (DailyPnL.pnl entry).
Proof.
  unfold dailyPnL. rewrite Array_sort_In, in_map_iff.
  rewrite <- (In_get _ _ _ (dailyStats_NoDup trades)). split.
  - intros ([k v] & <- & Hin).
    apply (proj1 (Object_entries_In _ _)) in Hin. exact Hin.
  - intro Hin. exists (DailyPnL.date entry, DailyPnL.pnl entry). split.
    + now destruct entry.
    + apply (proj2 (Object_entries_In _ _)). exact Hin.
Qed.

Lemma filter_day (trades : list TradeEntry.t) (day : string) :
  filter (fun t => exit_day t =? day) (filter has_exit trades)
  = filter (closed_on day) trades.
Proof.
  induction trades as [|t l IH]; [reflexivity|].
  unfold closed_on in *. cbn [filter].
  destruct (has_exit t); cbn [filter andb]; now rewrite IH.
Qed.

Lemma dailyStats_get (trades : list TradeEntry.t) (day : string) :
  get day (dailyStats trades)
  = match filter (closed_on day) trades with
    | [] => None
    | day_trades => Some (sum_returns day_trades)
    end.
Proof.
  unfold dailyStats. rewrite fold_daily_get, filter_day.
  destruct (filter (closed_on day) trades); [reflexivity|].
  cbn [get default0]. apply f_equal. rewrite num_0. unfold number. ring.
Qed.
Lemma closed_on_spec (day : string) (t : TradeEntry.t) :
  closed_on day t = true
  <-> TradeEntry.trade_status t <> "OPEN"
      /\ exists s, TradeEntry.exit_timestamp t = Some s
                   /\ s <> "" /\ toDateString s = day.
Proof.
  unfold closed_on, has_exit, not_open, exit_day, truthy_str.
  rewrite !andb_true_iff, negb_true_iff, String.eqb_neq.
  destruct (TradeEntry.exit_timestamp t) as [s|].
  - rewrite negb_true_iff, String.eqb_neq, String.eqb_eq. split.
    + intros [[Ho Hs] Hd]. split; [assumption|]. now exists s.
    + intros [Ho (s' & [= <-] & Hs & Hd)]. auto.
  - split; [intros [[_ F] _]; discriminate F|].
    intros [_ (s & F & _)]. discriminate F.
Qed.


Lemma dailyPnL_entry (trades : list TradeEntry.t) (entry : DailyPnL.t) :
  In entry (dailyPnL trades)
  <-> filter (closed_on (DailyPnL.date entry)) trades <> []
      /\ DailyPnL.pnl entry
         = sum_returns (filter (closed_on (DailyPnL.date entry)) trades).
Proof.
  rewrite dailyPnL_In, dailyStats_get.
  destruct (filter (closed_on (DailyPnL.date entry)) trades) as [|t l].
  - split; [discriminate|]. intros [F _]. congruence.
  - split.
    + intros [= E]. split; [discriminate|now symmetry].
    + intros [_ E]. now rewrite E.
Qed.


End WithDate.




End Daily.

(** ** Time stamps that are not dates *)

Module Malformed.

Import Js Order Api PerformanceChart Spec JsFacts Sample.

(** C8 as stated fails: next to a regular closed trade, a closed trade
    whose time stamps are not dates gets its own point on the curve and
    its return is filed under the day 'Invalid Date'. *)
Lemma malformed_timestamp_kept :
  ~ curve_excludes_malformed (H := UtcDate.api)
      [win10; garbled] scenario_metrics
  /\ ~ daily_excludes_malformed (H := UtcDate.api) [win10; garbled].
Proof.
  split.
  - unfold curve_excludes_malformed. intro E. vm_compute in E.
    discriminate E.
  - unfold daily_excludes_malformed. intro F.
    rewrite Forall_forall in F.
    apply (F {| DailyPnL.date := "Invalid Date";
                DailyPnL.pnl := num (-5) |}).
    + vm_compute. right. left. qc_eq.
    + reflexivity.
Qed.

Lemma invalid_time_ties (api : DateApi) (trade other : TradeEntry.t) :
  open_time trade = None ->
  SortCompare by_timestamp trade other = 0%Z
  /\ SortCompare by_timestamp other trade = 0%Z.
Proof.
  unfold SortCompare, by_timestamp, time_diff, open_time. intros ->.
  split; [reflexivity|].
  now destruct (getTime (TradeEntry.timestamp other)).
Qed.

(** C8, amended: a closed trade whose time stamp is not a date is not
    set aside.  It stays among the replayed trades of the equity curve,
    where it compares as a tie with every other trade; and a closed trade
    whose exit time stamp is not a date is summed into an entry of the
    daily series filed under 'Invalid Date'.  Neither computation
    aborts. *)
Theorem malformed_timestamp_retained (api : DateApi)
        (trades : list TradeEntry.t) (trade : TradeEntry.t) :
  In trade trades ->
  TradeEntry.trade_status trade <> "OPEN" ->
  (open_time trade = None ->
   In trade (closedTrades trades)
   /\ (forall p : PerformanceMetrics.t,
         List.length (equityCurve trades (Some p))
         = S (List.length (filter not_open trades)))
   /\ forall other : TradeEntry.t,
       SortCompare by_timestamp trade other = 0%Z
       /\ SortCompare by_timestamp other trade = 0%Z)
  /\ (forall s : string,
        TradeEntry.exit_timestamp trade = Some s -> s <> "" ->
        getTime s = None ->
        exists entry : DailyPnL.t,
          In entry (dailyPnL trades)
          /\ DailyPnL.date entry = "Invalid Date"
          /\ DailyPnL.pnl entry
             = sum_returns (filter (closed_on "Invalid Date") trades)).
Proof.
  intros Hin Hst. split.
  - intro Ht. split; [|split].
    + apply (Permutation_in _ (Permutation_sym
                                 (EquityCurve.closedTrades_perm trades))).
      apply filter_In. split; [assumption|].
      unfold not_open. apply negb_true_iff. now apply String.eqb_neq.
    + intro p. destruct trades as [|t l]; [destruct Hin|].
      apply EquityCurve.curve_length_cons.
    + intro other. now apply invalid_time_ties.
  - intros s Hs Hne Hp.
    assert (Hc : closed_on "Invalid Date" trade = true).
    { apply Daily.closed_on_spec. split; [assumption|].
      exists s. repeat split; try assumption.
      unfold toDateString. unfold getTime in Hp. now rewrite Hp. }
    exists {| DailyPnL.date := "Invalid Date";
              DailyPnL.pnl :=
                sum_returns (filter (closed_on "Invalid Date") trades) |}.
    split; [|split; reflexivity].
    apply Daily.dailyPnL_entry. cbn [DailyPnL.date DailyPnL.pnl].
    split; [|reflexivity].
    intro E. assert (F : In trade (filter (closed_on "Invalid Date") trades))
      by (apply filter_In; now split).
    rewrite E in F. exact F.
Qed.

Lemma malformed_timestamp_retained_witness :
  In garbled (closedTrades (H := UtcDate.api) [win10; garbled])
  /\ exists entry : DailyPnL.t,
      In entry (dailyPnL (H := UtcDate.api) [win10; garbled])
      /\ DailyPnL.date entry = "Invalid Date".
Proof.
  assert (Hin : In garbled [win10; garbled]) by (right; now left).
  assert (Hst : TradeEntry.trade_status garbled <> "OPEN") by discriminate.
  destruct (malformed_timestamp_retained UtcDate.api [win10; garbled]
                                         garbled Hin Hst) as [Hc Hd].
  assert (Ht : open_time (H := UtcDate.api) garbled = None)
    by (vm_compute; reflexivity).
  assert (Hp : getTime (H := UtcDate.api) "not-a-date" = None)
    by (vm_compute; reflexivity).
  assert (Hne : "not-a-date" <> "") by discriminate.
  destruct (Hc Ht) as [Hkept _].
  destruct (Hd "not-a-date" eq_refl Hne Hp) as (entry & H1 & H2 & _).
  split; [exact Hkept|].
  exists entry. split; assumption.
Defined.

End Malformed.

(** ** What the component leaves alone *)

Module Frame.

Import Js Api Spec JsFacts Sample.
Import Memory.

Lemma bind_Some {A B} (m : M A) (f : A -> M B) (s s' : store) (a : A) :
  m s = Some (a, s') -> bind m f s = f a s'.
Proof. unfold bind. now intros ->. Qed.

Lemma load_trades_deref (rs : list ref) (s : store) :
  load_trades rs s
  = option_map (fun os => (os, s)) (deref (trade_objects s) rs).
Proof.
  induction rs as [|r rs IH]; [reflexivity|].
  cbn [load_trades deref]. unfold bind, load_trade.
  destruct (nth_error (trade_objects s) r) as [o|]; [|reflexivity].
  cbn [option_map]. rewrite IH.
  now destruct (deref (trade_objects s) rs).
Qed.

(** A list of references paired with the objects they point at. *)
Lemma deref_pairs (objects : list TradeEntry.t) (rs : list ref) :
  forall os,
    deref objects rs = Some os ->
    Forall (fun e => nth_error objects (fst e) = Some (snd e))
           (combine rs os)
    /\ map snd (combine rs os) = os.
Proof.
  induction rs as [|r rs IH]; intros os E; cbn [deref] in E.
  - injection E as <-. split; [constructor|reflexivity].
  - destruct (nth_error objects r) as [o|] eqn:Er; [|discriminate E].
    destruct (deref objects rs) as [os'|]; [|discriminate E].
    injection E as <-. destruct (IH os' eq_refl) as [IH1 IH2].
    cbn [combine map snd]. split; [now constructor|now rewrite IH2].
Qed.

Lemma pairs_deref (objects : list TradeEntry.t)
      (l : list (ref * TradeEntry.t)) :
  Forall (fun e => nth_error objects (fst e) = Some (snd e)) l ->
  deref objects (map fst l) = Some (map snd l).
Proof.
  induction 1 as [|[r o] l Hr Hl IH]; [reflexivity|].
  cbn [map deref fst snd] in *. now rewrite Hr, IH.
Qed.

Lemma map_snd_filter {A B} (f : B -> bool) (l : list (A * B)) :
  map snd (filter (fun e => f (snd e)) l) = filter f (map snd l).
Proof.
  induction l as [|e l IH]; [reflexivity|].
  cbn [filter map]. destruct (f (snd e)); cbn [map]; now rewrite IH.
Qed.

Lemma map_snd_insert {A B} (cmp : B -> B -> option Z) (e : A * B)
      (l : list (A * B)) :
  map snd (insert (fun x y => cmp (snd x) (snd y)) e l)
  = insert cmp (snd e) (map snd l).
Proof.
  induction l as [|e' l IH]; [reflexivity|].
  cbn [insert map]. unfold SortCompare. cbv beta.
  destruct (match cmp (snd e) (snd e') with Some v => v | None => 0%Z end
            <=? 0)%Z; cbn [map]; [reflexivity|now rewrite IH].
Qed.

Lemma map_snd_sort {A B} (cmp : B -> B -> option Z) (l : list (A * B)) :
  map snd (Array_sort (fun x y => cmp (snd x) (snd y)) l)
  = Array_sort cmp (map snd l).
Proof.
  induction l as [|e l IH]; [reflexivity|].
  cbn [Array_sort fold_right map].
  rewrite map_snd_insert. f_equal. exact IH.
Qed.

Lemma replace_nth_last {A} (l : list A) (x y : A) :
  replace_nth (List.length l) y (l ++ [x]) = l ++ [y].
Proof. induction l as [|z l IH]; [reflexivity|]. cbn. now rewrite IH. Qed.

Lemma nth_error_last {A} (l : list A) (x : A) :
  nth_error (l ++ [x]) (List.length l) = Some x.
Proof. rewrite nth_error_app2, Nat.sub_diag by lia. reflexivity. Qed.

Lemma preserved_extended (s : store) (l : list ref) :
  preserved s (extended s l).
Proof.
  repeat split. intros a Ha. cbn. now apply nth_error_app1.
Qed.

Lemma preserved_trans (s1 s2 s3 : store) :
  preserved s1 s2 -> preserved s2 s3 -> preserved s1 s3.
Proof.
  intros (T1 & M1 & A1) (T2 & M2 & A2). repeat split; try congruence.
  intros a Ha. rewrite <- A1 by assumption. apply A2.
  apply nth_error_Some. rewrite A1 by assumption.
  now apply nth_error_Some.
Qed.

Lemma elements_spec (s : store) (a : ref) (os : list TradeEntry.t) :
  trades_of s a = Some os -> elements a s = Some (os, s).
Proof.
  unfold trades_of, elements, bind, load_array. intro E.
  destruct (nth_error (arrays s) a) as [rs|]; [|discriminate E].
  cbn [option_map]. now rewrite load_trades_deref, E.
Qed.

(** [filter] leaves the store as it was but for the array it adds,
    which holds the objects that pass, in their order. *)
Lemma Array_filter_spec (s : store) (a : ref) (f : TradeEntry.t -> bool)
      (os : list TradeEntry.t) :
  trades_of s a = Some os ->
  exists l,
    Array_filter a f s = Some (List.length (arrays s), extended s l)
    /\ trades_of (extended s l) (List.length (arrays s))
       = Some (filter f os).
Proof.
  unfold trades_of, Array_filter, bind, load_array. intro E.
  destruct (nth_error (arrays s) a) as [rs|]; [|discriminate E].
  cbn [option_map]. rewrite load_trades_deref, E. cbn [option_map].
  eexists. split; [reflexivity|].
  cbn [extended arrays trade_objects]. rewrite nth_error_last.
  destruct (deref_pairs _ _ _ E) as [Hp Hs].
  rewrite pairs_deref.
  - now rewrite map_snd_filter, Hs.
  - apply Forall_forall. intros e He. apply filter_In in He.
    rewrite Forall_forall in Hp. now apply Hp.
Qed.

(** [sort] on the last array of the store reorders that array and no
    other. *)
Lemma Array_sort_last_spec (s : store) (l : list ref)
      (cmp : TradeEntry.t -> TradeEntry.t -> option Z)
      (os : list TradeEntry.t) :
  trades_of (extended s l) (List.length (arrays s)) = Some os ->
  exists l',
    Array_sort_in_place (List.length (arrays s)) cmp (extended s l)
    = Some (List.length (arrays s), extended s l')
    /\ trades_of (extended s l') (List.length (arrays s))
       = Some (Array_sort cmp os).
Proof.
  unfold trades_of, Array_sort_in_place, bind, load_array, write_array.
  cbn [extended arrays trade_objects metrics_objects].
  rewrite nth_error_last. intro E. cbn [option_map].
  rewrite load_trades_deref. cbn [extended trade_objects]. rewrite E.
  cbn [option_map extended arrays trade_objects metrics_objects].
  rewrite length_app. cbn [List.length].
  replace (List.length (arrays s) <? List.length (arrays s) + 1)%nat
    with true by (symmetry; apply Nat.ltb_lt; lia).
  rewrite replace_nth_last. eexists. split; [reflexivity|].
  rewrite nth_error_last.
  destruct (deref_pairs _ _ _ E) as [Hp Hs].
  rewrite pairs_deref.
  - now rewrite map_snd_sort, Hs.
  - apply Forall_forall. intros e He.
    apply (proj1 (Array_sort_In _ _ _)) in He.
    rewrite Forall_forall in Hp. now apply Hp.
Qed.

Lemma trades_of_preserved (s s' : store) (a : ref)
      (os : list TradeEntry.t) :
  preserved s s' -> trades_of s a = Some os -> trades_of s' a = Some os.
Proof.
  unfold trades_of. intros (T & _ & A) E.
  destruct (nth_error (arrays s) a) as [rs|] eqn:Ea; [|discriminate E].
  rewrite A, Ea, T; [assumption|].
  apply nth_error_Some. congruence.
Qed.

Lemma metrics_of_preserved (s s' : store) (r : option ref)
      (p : option PerformanceMetrics.t) :
  preserved s s' -> metrics_of s r = Some p -> metrics_of s' r = Some p.
Proof. unfold metrics_of. intros (_ & -> & _) E. exact E. Qed.

Lemma deref_length (objects : list TradeEntry.t) (rs : list ref) :
  forall os, deref objects rs = Some os -> List.length rs = List.length os.
Proof.
  induction rs as [|r rs IH]; intros os E; cbn [deref] in E.
  - now injection E as <-.
  - destruct (nth_error objects r); [|discriminate E].
    destruct (deref objects rs) as [os'|]; [|discriminate E].
    injection E as <-. cbn. f_equal. now apply IH.
Qed.

Lemma load_array_spec (s : store) (a : ref) (os : list TradeEntry.t) :
  trades_of s a = Some os ->
  exists rs,
    load_array a s = Some (rs, s) /\ List.length rs = List.length os.
Proof.
  unfold trades_of, load_array. intro E.
  destruct (nth_error (arrays s) a) as [rs|]; [|discriminate E].
  exists rs. split; [reflexivity|]. now apply deref_length in E.
Qed.

Section WithDate.
Context `{DateApi}.

Lemma equityCurve_run (s : store) (trades : ref)
      (performance : option ref) (ts : list TradeEntry.t)
      (p : option PerformanceMetrics.t) :
  trades_of s trades = Some ts ->
  metrics_of s performance = Some p ->
  exists s',
    Memory.equityCurve trades performance s
    = Some (PerformanceChart.equityCurve ts p, s')
    /\ preserved s s'.
Proof.
  intros Ht Hp. unfold Memory.equityCurve.
  destruct (load_array_spec _ _ _ Ht) as (rs & Ea & Hlen).
  rewrite (bind_Some _ _ _ _ _ Ea).
  destruct performance as [pr|]; cbn [metrics_of] in Hp.
  - destruct (nth_error (metrics_objects s) pr) as [pm|] eqn:Em;
      [|discriminate Hp].
    injection Hp as <-. rewrite Hlen.
    unfold PerformanceChart.equityCurve.
    destruct (List.length ts =? 0)%nat.
    + exists s. split; [reflexivity|]. now repeat split.
    + assert (Em' : load_metrics pr s = Some (pm, s))
        by (unfold load_metrics; now rewrite Em).
      rewrite (bind_Some _ _ _ _ _ Em').
      destruct (Array_filter_spec s trades PerformanceChart.not_open
                                  ts Ht) as (l & Ef & Hf).
      rewrite (bind_Some _ _ _ _ _ Ef).
      destruct (Array_sort_last_spec s l PerformanceChart.by_timestamp
                                     _ Hf) as (l' & Es & Hs).
      rewrite (bind_Some _ _ _ _ _ Es).
      rewrite (bind_Some _ _ _ _ _ (elements_spec _ _ _ Hs)).
      exists (extended s l'). split; [reflexivity|].
      apply preserved_extended.
  - injection Hp as <-. exists s. split; [reflexivity|].
    now repeat split.
Qed.

Lemma dailyPnL_run (s : store) (trades : ref)
      (ts : list TradeEntry.t) :
  trades_of s trades = Some ts ->
  exists s',
    Memory.dailyPnL trades s = Some (PerformanceChart.dailyPnL ts, s')
    /\ preserved s s'.
Proof.
  intro Ht. unfold Memory.dailyPnL.
  destruct (Array_filter_spec s trades PerformanceChart.has_exit ts Ht)
    as (l & Ef & Hf).
  rewrite (bind_Some _ _ _ _ _ Ef).
  rewrite (bind_Some _ _ _ _ _ (elements_spec _ _ _ Hf)).
  exists (extended s l). split; [reflexivity|].
  apply preserved_extended.
Qed.
End WithDate.

Lemma symbolPerformance_run (s : store) (trades : ref)
      (ts : list TradeEntry.t) :
  trades_of s trades = Some ts ->
  exists s',
    Memory.symbolPerformance trades s
    = Some (PerformanceChart.symbolPerformance ts, s')
    /\ preserved s s'.
Proof.
  intro Ht. unfold Memory.symbolPerformance.
  destruct (Array_filter_spec s trades PerformanceChart.not_open ts Ht)
    as (l & Ef & Hf).
  rewrite (bind_Some _ _ _ _ _ Ef).
  rewrite (bind_Some _ _ _ _ _ (elements_spec _ _ _ Hf)).
  exists (extended s l). split; [reflexivity|].
  apply preserved_extended.
Qed.

Lemma roeDistribution_run (s : store) (trades : ref)
      (ts : list TradeEntry.t) :
  trades_of s trades = Some ts ->
  exists s',
    Memory.roeDistribution trades s
    = Some (PerformanceChart.roeDistribution ts, s')
    /\ preserved s s'.
Proof.
  intro Ht. unfold Memory.roeDistribution.
  destruct (Array_filter_spec s trades PerformanceChart.not_open ts Ht)
    as (l1 & E1 & H1).
  rewrite (bind_Some _ _ _ _ _ E1).
  set (s1 := extended s l1) in *.
  set (closed := List.length (arrays s)) in *.
  destruct (Array_filter_spec
              s1 closed
              (fun t => TradeEntry.trade_status t =? "CLOSED_WIN") _ H1)
    as (l2 & E2 & H2).
  rewrite (bind_Some _ _ _ _ _ E2).
  set (s2 := extended s1 l2) in *.
  destruct (load_array_spec _ _ _ H2) as (wins & Ew & Lw).
  rewrite (bind_Some _ _ _ _ _ Ew).
  assert (H1' : trades_of s2 closed
                = Some (filter PerformanceChart.not_open ts))
    by (apply (trades_of_preserved s1); [apply preserved_extended|exact H1]).
  destruct (Array_filter_spec
              s2 closed
              (fun t => TradeEntry.trade_status t =? "CLOSED_LOSS") _ H1')
    as (l3 & E3 & H3).
  rewrite (bind_Some _ _ _ _ _ E3).
  destruct (load_array_spec _ _ _ H3) as (losses & El & Ll).
  rewrite (bind_Some _ _ _ _ _ El).
  exists (extended s2 l3). split.
  - unfold ret, PerformanceChart.roeDistribution. now rewrite Lw, Ll.
  - apply (preserved_trans s s1); [apply preserved_extended|].
    apply (preserved_trans s1 s2); apply preserved_extended.
Qed.

(** C9: run on a store that holds the caller's [trades] array (an array
    of references to trade objects) and performance snapshot, each of
    the four computations returns what it returns on the objects alone
    and leaves every trade object, the snapshot and every array of the
    caller as they were: the trades array has the same elements in the
    same order afterwards.  The sort of the equity curve writes to the
    array [filter] has just allocated. *)
Theorem inputs_unchanged (api : DateApi) (s : store) (trades : ref)
        (performance : option ref) (ts : list TradeEntry.t)
        (p : option PerformanceMetrics.t) :
  trades_of s trades = Some ts ->
  metrics_of s performance = Some p ->
  let unchanged (s' : store) :=
    preserved s s'
    /\ trades_of s' trades = Some ts
    /\ metrics_of s' performance = Some p in
  (exists s',
      Memory.equityCurve trades performance s
      = Some (PerformanceChart.equityCurve ts p, s')
      /\ unchanged s')
  /\ (exists s',
        Memory.symbolPerformance trades s
        = Some (PerformanceChart.symbolPerformance ts, s')
        /\ unchanged s')
  /\ (exists s',
        Memory.dailyPnL trades s
        = Some (PerformanceChart.dailyPnL ts, s')
        /\ unchanged s')
  /\ (exists s',
        Memory.roeDistribution trades s
        = Some (PerformanceChart.roeDistribution ts, s')
        /\ unchanged s').
Proof.
  intros Ht Hp unchanged.
  assert (U : forall s', preserved s s' -> unchanged s').
  { intros s' Hs. split; [assumption|]. split.
    - now apply (trades_of_preserved s).
    - now apply (metrics_of_preserved s). }
  split; [|split; [|split]].
  - destruct (equityCurve_run s trades performance ts p Ht Hp)
      as (s' & E & Hs).
    exists s'. auto.
  - destruct (symbolPerformance_run s trades ts Ht) as (s' & E & Hs).
    exists s'. auto.
  - destruct (dailyPnL_run s trades ts Ht) as (s' & E & Hs).
    exists s'. auto.
  - destruct (roeDistribution_run s trades ts Ht) as (s' & E & Hs).
    exists s'. auto.
Qed.

Lemma inputs_unchanged_witness :
  exists s',
    Memory.equityCurve (H := UtcDate.api) 0 (Some 0%nat) sample_store
    = Some (PerformanceChart.equityCurve
              (H := UtcDate.api)
              [opened_later; opened_earlier; still_open;
               monday_win; tuesday_loss]
              (Some scenario_metrics), s')
    /\ trades_of s' 0
       = Some [opened_later; opened_earlier; still_open;
               monday_win; tuesday_loss]
    /\ nth_error (arrays s') 0 = Some [0; 1; 2; 3; 4]%nat.
Proof.
  destruct (inputs_unchanged UtcDate.api sample_store 0 (Some 0%nat)
                             _ _ eq_refl eq_refl)
    as ((s' & E & (_ & _ & A) & T & _) & _).
  exists s'. split; [exact E|]. split; [exact T|].
  apply (A 0%nat). cbn. lia.
Defined.

(** The sort does reorder the array it is called on: applied to the
    caller's array itself it would have changed it. *)
Example sort_reorders_its_array :
  option_map (fun r => nth_error (arrays (snd r)) 0)
             (Array_sort_in_place
                0 (PerformanceChart.by_timestamp (H := UtcDate.api))
                sample_store)
  = Some (Some [1; 4; 2; 3; 0]%nat).
Proof. vm_compute. reflexivity. Qed.

End Frame.


(** ** More on the per-symbol statistics *)

Module SymbolStats.

Import Js Api PerformanceChart Spec Derived JsFacts Sample.

Lemma symbol_step_get (o : Obj Stats.t) (t : TradeEntry.t) (k : string) :
  get k (symbol_step o t)
  = if TradeEntry.symbol t =? k
    then Some (bump (match get (TradeEntry.symbol t) o with
                     | Some stats => stats
                     | None => zero_stats
                     end) t)
    else get k o.
Proof.
  unfold symbol_step. rewrite or_zero_spec. fold (realized_return t).
  set (d := TradeEntry.symbol t).
  assert (E0 : exists o1,
             match get d o with
             | Some _ => o
             | None => set d zero_stats o
             end = o1
             /\ get d o1 = Some (match get d o with
                                 | Some stats => stats
                                 | None => zero_stats
                                 end)
             /\ forall k', d <> k' -> get k' o1 = get k' o).
  { destruct (get d o) as [stats|] eqn:E.
    - exists o. auto.
    - exists (set d zero_stats o). repeat split.
      + apply get_set_eq.
      + intros k' Hk. now apply get_set_neq. }
  fold zero_stats. destruct E0 as (o1 & -> & Hd & Hk). rewrite Hd.
  set (stats := match get d o with Some st => st | None => zero_stats end).
  assert (Eb : {| Stats.wins :=
                    Stats.wins
                      (if TradeEntry.trade_status t =? "CLOSED_WIN"
                       then {| Stats.wins := S (Stats.wins stats);
                               Stats.losses := Stats.losses stats;
                               Stats.totalPnL := Stats.totalPnL stats |}
                       else {| Stats.wins := Stats.wins stats;
                               Stats.losses := S (Stats.losses stats);
                               Stats.totalPnL := Stats.totalPnL stats |});
                  Stats.losses :=
                    Stats.losses
                      (if TradeEntry.trade_status t =? "CLOSED_WIN"
                       then {| Stats.wins := S (Stats.wins stats);
                               Stats.losses := Stats.losses stats;
                               Stats.totalPnL := Stats.totalPnL stats |}
                       else {| Stats.wins := Stats.wins stats;
                               Stats.losses := S (Stats.losses stats);
                               Stats.totalPnL := Stats.totalPnL stats |});
                  Stats.totalPnL :=
                    (Stats.totalPnL
                       (if TradeEntry.trade_status t =? "CLOSED_WIN"
                        then {| Stats.wins := S (Stats.wins stats);
                                Stats.losses := Stats.losses stats;
                                Stats.totalPnL := Stats.totalPnL stats |}
                        else {| Stats.wins := Stats.wins stats;
                                Stats.losses := S (Stats.losses stats);
                                Stats.totalPnL := Stats.totalPnL stats |})
                     + realized_return t)%Qc |}
                = bump stats t).
  { unfold bump, is_win.
    now destruct (TradeEntry.trade_status t =? "CLOSED_WIN"). }
  rewrite Eb.
  destruct (d =? k) eqn:E.
  - apply String.eqb_eq in E. subst k. apply get_set_eq.
  - apply String.eqb_neq in E. rewrite get_set_neq by assumption.
    now apply Hk.
Qed.

Lemma symbol_step_NoDup (o : Obj Stats.t) (t : TradeEntry.t) :
  NoDup (map fst o) -> NoDup (map fst (symbol_step o t)).
Proof.
  intro Hn. unfold symbol_step.
  set (o1 := match get (TradeEntry.symbol t) o with
             | Some _ => o
             | None => set (TradeEntry.symbol t) _ o
             end).
  assert (Hn1 : NoDup (map fst o1)).
  { subst o1. destruct (get _ o); [assumption|now apply NoDup_set]. }
  destruct (get (TradeEntry.symbol t) o1); [now apply NoDup_set|assumption].
Qed.

Lemma Qc_plus_0_cancel (a b : Qc) : (a + 0 = b + 0)%Qc -> a = b.
Proof. now rewrite !Qcplus_0_r. Qed.

(** Ring equations between numbers. *)
Ltac qc_ring := apply Qc_plus_0_cancel; unfold Qcdiv; ring.

Lemma symbolStats_NoDup (trades : list TradeEntry.t) :
  NoDup (map fst (symbolStats trades)).
Proof.
  unfold symbolStats.
  assert (G : forall l o, NoDup (map fst o) ->
                          NoDup (map fst (fold_left symbol_step l o))).
  { induction l as [|t l IH]; intros o Hn; simpl; [assumption|].
    apply IH. now apply symbol_step_NoDup. }
  apply G. constructor.
Qed.

Lemma fold_symbol_get (l : list TradeEntry.t) (k : string) :
  forall o,
    get k (fold_left symbol_step l o)
    = match filter (fun t => TradeEntry.symbol t =? k) l with
      | [] => get k o
      | own =>
          Some (fold_left bump own
                          (match get k o with
                           | Some stats => stats
                           | None => zero_stats
                           end))
      end.
Proof.
  induction l as [|t l IH]; intro o; [reflexivity|].
  cbn [fold_left filter]. rewrite IH, symbol_step_get.
  destruct (TradeEntry.symbol t =? k) eqn:E; [|reflexivity].
  apply String.eqb_eq in E. rewrite E.
  now destruct (filter (fun t0 => TradeEntry.symbol t0 =? k) l).
Qed.

(** What the accumulator of a symbol holds after its trades. *)
Lemma fold_bump (own : list TradeEntry.t) :
  forall stats,
    Stats.wins (fold_left bump own stats)
    = (Stats.wins stats + List.length (filter is_win own))%nat
    /\ Stats.losses (fold_left bump own stats)
       = (Stats.losses stats + List.length (filter not_won own))%nat
    /\ Stats.totalPnL (fold_left bump own stats)
       = (Stats.totalPnL stats + sum_returns own)%Qc.
Proof.
  induction own as [|t l IH]; intro stats.
  - cbn. repeat split; try lia. rewrite num_0. qc_ring.
  - cbn [fold_left filter]. destruct (IH (bump stats t)) as (W & L & P).
    rewrite W, L, P. unfold not_won, bump. cbn [Stats.wins Stats.losses
                                                 Stats.totalPnL].
    change (sum_returns (t :: l))
      with (realized_return t + sum_returns l)%Qc.
    destruct (is_win t); cbn [negb filter List.length];
      repeat split; try lia; qc_ring.
Qed.

Lemma filter_symbol (trades : list TradeEntry.t) (k : string) :
  filter (fun t => TradeEntry.symbol t =? k) (filter not_open trades)
  = filter (of_symbol k) trades.
Proof.
  induction trades as [|t l IH]; [reflexivity|].
  unfold of_symbol in *. cbn [filter].
  destruct (not_open t); cbn [filter andb]; now rewrite IH.
Qed.

Lemma symbolStats_get (trades : list TradeEntry.t) (k : string) :
  get k (symbolStats trades)
  = match filter (of_symbol k) trades with
    | [] => None
    | own => Some (fold_left bump own zero_stats)
    end.
Proof.
  unfold symbolStats. rewrite fold_symbol_get, filter_symbol.
  reflexivity.
Qed.

Lemma symbolPerformance_In (trades : list TradeEntry.t)
      (stat : SymbolStat.t) :
  In stat (symbolPerformance trades)
  <-> exists stats,
      get (SymbolStat.symbol stat) (symbolStats trades) = Some stats
      /\ stat = symbol_stat (SymbolStat.symbol stat, stats).
Proof.
  unfold symbolPerformance. rewrite in_map_iff. split.
  - intros ([k stats] & <- & Hin).
    apply (proj1 (Object_entries_In _ _)) in Hin.
    apply (In_get _ _ _ (symbolStats_NoDup trades)) in Hin.
    exists stats. now split.
  - intros (stats & Hg & ->).
    exists (SymbolStat.symbol stat, stats). split; [reflexivity|].
    apply (proj2 (Object_entries_In _ _)).
    now apply (In_get _ _ _ (symbolStats_NoDup trades)).
Qed.

(** The accumulator of a symbol, read off the closed trades of the
    symbol. *)
Lemma symbolStats_fields (trades : list TradeEntry.t) (k : string)
      (stats : Stats.t) :
  get k (symbolStats trades) = Some stats ->
  filter (of_symbol k) trades <> []
  /\ Stats.wins stats
     = List.length (filter is_win (filter (of_symbol k) trades))
  /\ Stats.losses stats
     = List.length (filter not_won (filter (of_symbol k) trades))
  /\ Stats.totalPnL stats = sum_returns (filter (of_symbol k) trades).
Proof.
  rewrite symbolStats_get. set (own := filter (of_symbol k) trades).
  clearbody own. intro Hg.
  destruct (fold_bump own zero_stats) as (W & L & P).
  assert (Hs : own <> [] /\ stats = fold_left bump own zero_stats).
  { destruct own; [discriminate Hg|]. injection Hg as <-.
    split; [discriminate|reflexivity]. }
  destruct Hs as [Hne ->]. rewrite W, L, P.
  cbn [zero_stats Stats.wins Stats.losses Stats.totalPnL].
  repeat split; try assumption. rewrite num_0. qc_ring.
Qed.

Lemma win_or_not (l : list TradeEntry.t) :
  (List.length (filter is_win l) + List.length (filter not_won l))%nat
  = List.length l.
Proof.
  induction l as [|x l IH]; [reflexivity|].
  unfold not_won in *. cbn [filter].
  destruct (is_win x); cbn [negb List.length]; lia.
Qed.




(** X1: each statistic describes the closed trades of its symbol: there
    is at least one; the wins are those with status CLOSED_WIN, the losses
    all the others, whatever their status; the total P&L is the sum of
    their realized returns and the total their number. *)
Theorem symbolPerformance_groups (trades : list TradeEntry.t)
        (stat : SymbolStat.t) :
  In stat (symbolPerformance trades) ->
  let own := filter (of_symbol (SymbolStat.symbol stat)) trades in
  own <> []
  /\ SymbolStat.wins stat = List.length (filter is_win own)
  /\ SymbolStat.losses stat = List.length (filter not_won own)
  /\ SymbolStat.totalPnL stat = sum_returns own
  /\ SymbolStat.total stat = List.length own.
Proof.
  intros Hin own. apply symbolPerformance_In in Hin.
  destruct Hin as (stats & Hg & Es).
  destruct (symbolStats_fields _ _ _ Hg) as (Hne & W & L & P).
  fold own in Hne, W, L, P. rewrite Es.
  cbn [symbol_stat SymbolStat.wins SymbolStat.losses
                   SymbolStat.totalPnL SymbolStat.total].
  repeat split; try assumption.
  rewrite W, L. apply win_or_not.
Qed.

Lemma symbolPerformance_groups_witness :
  exists stat,
    In stat (symbolPerformance symbol_trades)
    /\ SymbolStat.wins stat = 1%nat /\ SymbolStat.losses stat = 1%nat
    /\ SymbolStat.total stat = 2%nat.
Proof.
  assert (Hin : In (symbol_stat ("BTCUSDT", fold_left bump symbol_trades
                                                     zero_stats))
                   (symbolPerformance symbol_trades)) by (left; reflexivity).
  destruct (symbolPerformance_groups symbol_trades _ Hin)
    as (_ & W & L & _ & T).
  eexists. split; [exact Hin|]. repeat split; assumption.
Defined.


End SymbolStats.

(** ** Totals by key *)

Module Totals.

Import Js Derived.

Section Monoid.
Context {M : Type} (op : M -> M -> M) (e : M).
Hypothesis op_assoc : forall x y z, op x (op y z) = op (op x y) z.
Hypothesis op_comm : forall x y, op x y = op y x.
Hypothesis op_e : forall x, op e x = x.








End Monoid.





End Totals.

(** ** The views against one another *)

Module Consistency.

Import Js Api PerformanceChart Spec Derived JsFacts Sample Totals.






End Consistency.

(** ** More on the equity curve *)

Module CurveMore.

Import Js Order Api PerformanceChart Spec Derived JsFacts Sample Totals.
Import SymbolStats.




Section WithDate.
Context `{DateApi}.



Lemma replay_labels (l : list TradeEntry.t) :
  forall (b : number) (i : nat),
    map EquityPoint.time (replay b i l)
    = map (fun n => ("Trade " ++ string_of_nat n)%string)
          (seq (S i) (List.length l)).
Proof.
  induction l as [|t l IH]; intros b i; [reflexivity|].
  cbn [replay map List.length seq EquityPoint.time].
  rewrite IH. now rewrite Nat.add_1_r.
Qed.
End WithDate.




(** X6: open trades add no point to the curve.  A non-empty list of open
    trades only gives the single point 'Start'; removing an open trade
    from a list that stays non-empty changes nothing; and the points are
    labelled 'Start', 'Trade 1', ..., 'Trade n' for the [n] trades that
    are not open. *)
Theorem open_trades_add_nothing (api : DateApi)
        (p : PerformanceMetrics.t) :
  (forall (t : TradeEntry.t) (trades : list TradeEntry.t),
      Forall (fun t => TradeEntry.trade_status t = "OPEN") (t :: trades) ->
      equityCurve (t :: trades) (Some p) = [start_point (start_balance p)])
  /\ (forall (before after : list TradeEntry.t) (o : TradeEntry.t),
        TradeEntry.trade_status o = "OPEN" ->
        before ++ after <> [] ->
        equityCurve (before ++ o :: after) (Some p)
        = equityCurve (before ++ after) (Some p))
  /\ (forall (t : TradeEntry.t) (trades : list TradeEntry.t),
        map EquityPoint.time (equityCurve (t :: trades) (Some p))
        = labels (List.length (filter not_open (t :: trades)))).
Proof.
  split; [|split].
  - intros t trades Ho. rewrite EquityCurve.equityCurve_cons.
    unfold closedTrades.
    assert (E : filter not_open (t :: trades) = []).
    { induction Ho as [|x l Hx _ IH]; [reflexivity|].
      cbn [filter]. unfold not_open at 1. now rewrite Hx. }
    now rewrite E.
  - intros before after o Ho Hne.
    assert (E : closedTrades (before ++ o :: after)
                = closedTrades (before ++ after)).
    { unfold closedTrades. rewrite !filter_app. cbn [filter].
      unfold not_open at 2. now rewrite Ho. }
    destruct before as [|b before].
    + destruct after as [|a after]; [now elim Hne|].
      cbn [app] in *. now rewrite !EquityCurve.equityCurve_cons, E.
    + cbn [app] in *. now rewrite !EquityCurve.equityCurve_cons, E.
  - intros t trades. rewrite EquityCurve.equityCurve_cons.
    cbn [map start_point EquityPoint.time]. unfold labels. f_equal.
    rewrite replay_labels. unfold closedTrades.
    now rewrite Array_sort_length.
Qed.

Lemma open_trades_add_nothing_witness :
  equityCurve (H := UtcDate.api) [still_open] (Some scenario_metrics)
  = [start_point (start_balance scenario_metrics)]
  /\ equityCurve (H := UtcDate.api) ([win10] ++ still_open :: [])
                 (Some scenario_metrics)
     = equityCurve (H := UtcDate.api) ([win10] ++ [])
                   (Some scenario_metrics).
Proof.
  destruct (open_trades_add_nothing UtcDate.api scenario_metrics)
    as (H1 & H2 & _).
  split.
  - apply H1. repeat constructor.
  - apply H2; [reflexivity|discriminate].
Defined.

End CurveMore.

(** ** More on the daily series *)

Module DailyMore.

Import Js Order Api PerformanceChart Spec Derived JsFacts Sample Totals.
Import SymbolStats.




Section WithDate.
Context `{DateApi}.

End WithDate.




End DailyMore.

(** ** The CSV export read back *)

Module Csv.

Import Js TraderControls CsvReader.
Local Open Scope string_scope.

















(** A string with a line feed and neither comma nor quote is written
    as it is, and reads back as two records. *)
Example export_line_feed :
  read (convertToCSV MoreSamples.multiline_rows)
  = [["notes"]; ["entry"]; ["exit"]].
Proof. reflexivity. Qed.

End Csv.


(** ** The dashboard and its chart *)

Module Dashboard.

Import Js Api Spec Derived JsFacts Sample.
Import TraderDashboard.

Lemma split_perm {A} (f : A -> bool) (l : list A) :
  Permutation (filter f l ++ filter (fun x => negb (f x)) l) l.
Proof.
  induction l as [|x l IH]; cbn [filter]; [constructor|].
  destruct (f x); cbn [negb app].
  - now constructor.
  - eapply perm_trans; [apply Permutation_sym, Permutation_middle|].
    now constructor.
Qed.

Lemma closedTrades_eq (trades : list TradeEntry.t) :
  closedTrades trades = filter PerformanceChart.not_open trades.
Proof. reflexivity. Qed.

Lemma filter_twice {A} (f g : A -> bool) (l : list A) :
  (forall x, g x = true -> f x = true) ->
  filter g (filter f l) = filter g l.
Proof.
  intro Hg. induction l as [|x l IH]; [reflexivity|]. cbn [filter].
  destruct (f x) eqn:F; cbn [filter]; rewrite IH; [reflexivity|].
  destruct (g x) eqn:G; [|reflexivity]. apply Hg in G. congruence.
Qed.

(** X9: the dashboard splits the trades in two without losing, adding or
    reordering any: the open positions are the trades with status OPEN,
    the trade history the others, each in the order of the list; together
    they are a rearrangement of the list, so the two counts shown add up
    to the count on the Trades tab; and the card of the open positions is
    shown exactly when some trade is open. *)
Theorem dashboard_split (trades : list TradeEntry.t) :
  Permutation (openTrades trades ++ closedTrades trades) trades
  /\ (List.length (openTrades trades) + List.length (closedTrades trades))%nat
     = List.length trades
  /\ (forall t : TradeEntry.t,
        In t (openTrades trades)
        <-> In t trades /\ TradeEntry.trade_status t = "OPEN")
  /\ (forall t : TradeEntry.t,
        In t (closedTrades trades)
        <-> In t trades /\ TradeEntry.trade_status t <> "OPEN")
  /\ (shows_open_positions trades = true
      <-> exists t, In t trades /\ TradeEntry.trade_status t = "OPEN").
Proof.
  assert (Hp := split_perm (fun t => TradeEntry.trade_status t =? "OPEN")
                           trades).
  assert (Ho : forall t, In t (openTrades trades)
                         <-> In t trades
                             /\ TradeEntry.trade_status t = "OPEN").
  { intro t. unfold openTrades. now rewrite filter_In, String.eqb_eq. }
  split; [exact Hp|]. split; [|split; [exact Ho|split]].
  - rewrite <- length_app. now apply Permutation_length.
  - intro t. unfold closedTrades.
    now rewrite filter_In, negb_true_iff, String.eqb_neq.
  - unfold shows_open_positions. rewrite Nat.ltb_lt. split.
    + intro Hl.
      assert (Hx : exists t, In t (openTrades trades)).
      { revert Hl. destruct (openTrades trades) as [|t l]; cbn; [lia|].
        intros _. exists t. now left. }
      destruct Hx as (t & Ht). exists t. now apply Ho.
    + intros (t & Ht). apply Ho in Ht. revert Ht.
      destruct (openTrades trades); cbn; [tauto|lia].
Qed.

(** X10: the chart is handed the whole list but reads the trade history
    only: the per-symbol statistics, the daily series and the
    distribution are those of the trade history, and so is the equity
    curve as soon as the history is not empty. *)
Theorem chart_reads_history (api : DateApi) (trades : list TradeEntry.t)
        (p : option PerformanceMetrics.t) :
  PerformanceChart.symbolPerformance trades
  = PerformanceChart.symbolPerformance (closedTrades trades)
  /\ PerformanceChart.dailyPnL trades
     = PerformanceChart.dailyPnL (closedTrades trades)
  /\ PerformanceChart.roeDistribution trades
     = PerformanceChart.roeDistribution (closedTrades trades)
  /\ (closedTrades trades <> [] ->
      PerformanceChart.equityCurve trades p
      = PerformanceChart.equityCurve (closedTrades trades) p).
Proof.
  rewrite closedTrades_eq.
  assert (I : filter PerformanceChart.not_open
                     (filter PerformanceChart.not_open trades)
              = filter PerformanceChart.not_open trades)
    by (apply filter_twice; auto).
  split; [|split; [|split]].
  - unfold PerformanceChart.symbolPerformance, PerformanceChart.symbolStats.
    now rewrite I.
  - unfold PerformanceChart.dailyPnL, PerformanceChart.dailyStats.
    rewrite filter_twice; [reflexivity|].
    intros t Ht. unfold PerformanceChart.has_exit in Ht.
    now apply andb_true_iff in Ht.
  - unfold PerformanceChart.roeDistribution. now rewrite I.
  - intro Hne. destruct p as [p|]; [|now destruct trades].
    destruct trades as [|t l]; [now elim Hne|].
    destruct (filter PerformanceChart.not_open (t :: l)) as [|c cs] eqn:E;
      [now elim Hne|].
    rewrite !EquityCurve.equityCurve_cons.
    unfold PerformanceChart.closedTrades. now rewrite E, I.
Qed.

Lemma chart_reads_history_witness :
  PerformanceChart.equityCurve (H := UtcDate.api) scenario_trades
                               (Some scenario_metrics)
  = PerformanceChart.equityCurve (H := UtcDate.api)
                                 (closedTrades scenario_trades)
                                 (Some scenario_metrics).
Proof.
  apply (chart_reads_history UtcDate.api scenario_trades
                             (Some scenario_metrics)).
  discriminate.
Defined.

End Dashboard.

(** ** The indicator badges *)

Module Indicators.

Import Js Derived JsFacts.
Import TechnicalIndicators.

Lemma ge_spec (x y : number) : ge x y = true <-> (y <= x)%Qc.
Proof. unfold ge. apply Qle_bool_iff. Qed.

Lemma le_spec (x y : number) : le x y = true <-> (x <= y)%Qc.
Proof. unfold le. apply Qle_bool_iff. Qed.

Lemma gt_spec (x y : number) : gt x y = true <-> (y < x)%Qc.
Proof.
  unfold gt. rewrite negb_true_iff. split.
  - intro E. apply Qcnot_le_lt. intro F. apply le_spec in F.
    unfold le in F. congruence.
  - intro L. destruct (Qle_bool x y) eqn:E; [|reflexivity].
    apply Qle_bool_iff in E. now apply Qclt_not_le in L.
Qed.

Lemma lt_spec (x y : number) : lt x y = true <-> (x < y)%Qc.
Proof. unfold lt. apply (gt_spec y x). Qed.

Lemma ge_false (x y : number) : ge x y = false <-> (x < y)%Qc.
Proof.
  rewrite <- (lt_spec x y). unfold lt, ge.
  now destruct (Qle_bool y x).
Qed.

Lemma le_false (x y : number) : le x y = false <-> (y < x)%Qc.
Proof.
  rewrite <- (gt_spec x y). unfold gt, le.
  now destruct (Qle_bool x y).
Qed.

Lemma num_30_70 : (num 30 < num 70)%Qc.
Proof. reflexivity. Qed.

(** X11: the RSI badge reads 'Overbought' from 70 up, 'Oversold' up to
    30 and 'Neutral' strictly between the two, and a higher RSI never
    gets a lower reading. *)
Theorem rsi_status (rsi : number) :
  (Badge.status (getRSIStatus rsi) = "Overbought" <-> (num 70 <= rsi)%Qc)
  /\ (Badge.status (getRSIStatus rsi) = "Oversold" <-> (rsi <= num 30)%Qc)
  /\ (Badge.status (getRSIStatus rsi) = "Neutral"
      <-> (num 30 < rsi)%Qc /\ (rsi < num 70)%Qc)
  /\ forall higher : number,
      (rsi <= higher)%Qc ->
      (rsi_rank (Badge.status (getRSIStatus rsi))
       <= rsi_rank (Badge.status (getRSIStatus higher)))%nat.
Proof.
  assert (C : forall r,
             (ge r (num 70) = true
              /\ Badge.status (getRSIStatus r) = "Overbought")
             \/ (ge r (num 70) = false /\ le r (num 30) = true
                 /\ Badge.status (getRSIStatus r) = "Oversold")
             \/ (ge r (num 70) = false /\ le r (num 30) = false
                 /\ Badge.status (getRSIStatus r) = "Neutral")).
  { intro r. unfold getRSIStatus.
    destruct (ge r (num 70)); [now left|].
    destruct (le r (num 30)); [right; now left|right; now right]. }
  assert (X : forall r, (r <= num 30)%Qc -> (num 70 <= r)%Qc -> False).
  { intros r H1 H2. apply (Qclt_not_le _ _ num_30_70).
    now apply Qcle_trans with r. }
  split; [|split; [|split]].
  - destruct (C rsi) as [[G E]|[(G & L & E)|(G & L & E)]]; rewrite E.
    + apply ge_spec in G. tauto.
    + apply ge_false in G. split; [discriminate|].
      intro F. now apply Qclt_not_le in G.
    + apply ge_false in G. split; [discriminate|].
      intro F. now apply Qclt_not_le in G.
  - destruct (C rsi) as [[G E]|[(G & L & E)|(G & L & E)]]; rewrite E.
    + apply ge_spec in G. split; [discriminate|]. intro F.
      exfalso. now apply (X rsi).
    + apply le_spec in L. tauto.
    + apply le_false in L. split; [discriminate|].
      intro F. now apply Qclt_not_le in L.
  - destruct (C rsi) as [[G E]|[(G & L & E)|(G & L & E)]]; rewrite E.
    + apply ge_spec in G. split; [discriminate|].
      intros [_ F]. now apply Qclt_not_le in F.
    + apply le_spec in L. split; [discriminate|].
      intros [F _]. now apply Qclt_not_le in F.
    + apply ge_false in G. apply le_false in L. tauto.
  - intros higher Hh.
    destruct (C rsi) as [[G E]|[(G & L & E)|(G & L & E)]]; rewrite E;
      destruct (C higher) as [[G' E']|[(G' & L' & E')|(G' & L' & E')]];
      rewrite E'; cbn; try lia; exfalso.
    + apply ge_spec in G. apply ge_false in G'.
      apply (Qclt_not_le _ _ G'). now apply Qcle_trans with rsi.
    + apply ge_spec in G. apply ge_false in G'.
      apply (Qclt_not_le _ _ G'). now apply Qcle_trans with rsi.
    + apply le_false in L. apply le_spec in L'.
      apply (Qclt_not_le _ _ L). now apply Qcle_trans with higher.
Qed.

Lemma lt_le_absurd (x y : number) : (x < y)%Qc -> (y <= x)%Qc -> False.
Proof. intros H1 H2. exact (Qclt_not_le _ _ H1 H2). Qed.

Lemma lt_le_le_absurd (x y z : number) :
  (x < y)%Qc -> (y <= z)%Qc -> (z <= x)%Qc -> False.
Proof.
  intros H1 H2 H3. apply (lt_le_absurd x y H1).
  now apply Qcle_trans with z.
Qed.

(** Takes a statement of equivalences apart and closes the cases that
    hold outright or contradict the order facts at hand. *)
Ltac crack :=
  repeat match goal with
         | |- _ /\ _ => split
         | |- _ <-> _ => split
         | |- _ -> _ => intro
         end.

Ltac absurd_order :=
  exfalso;
  repeat match goal with H : _ /\ _ |- _ => destruct H end;
  solve [ eauto using lt_le_absurd, lt_le_le_absurd, Qclt_le_weak ].

Ltac settle :=
  crack; try discriminate; try reflexivity; try assumption;
  try absurd_order.

(** X12: with the lower band below the upper, the Bollinger badge tells
    where the price is: 'Above Upper' from the upper band up, 'Below
    Lower' from the lower band down, and between the bands 'Above Middle'
    above the middle band and 'Below Middle' on it or below. *)
Theorem bollinger_status (price upper lower middle : number) :
  (lower < upper)%Qc ->
  let status := Badge.status (getBollingerStatus price upper lower middle) in
  (status = "Above Upper" <-> (upper <= price)%Qc)
  /\ (status = "Below Lower" <-> (price <= lower)%Qc)
  /\ (status = "Above Middle"
      <-> (lower < price)%Qc /\ (price < upper)%Qc /\ (middle < price)%Qc)
  /\ (status = "Below Middle"
      <-> (lower < price)%Qc /\ (price < upper)%Qc /\ (price <= middle)%Qc).
Proof.
  intros Hb status. subst status. unfold getBollingerStatus.
  destruct (ge price upper) eqn:U.
  - apply ge_spec in U. cbn [Badge.status].
    settle.
  - apply ge_false in U. destruct (le price lower) eqn:L.
    + apply le_spec in L. cbn [Badge.status].
      settle.
    + apply le_false in L. destruct (gt price middle) eqn:M.
      * apply gt_spec in M. cbn [Badge.status].
    settle.
      * assert (M' : (price <= middle)%Qc).
        { apply Qcnot_lt_le. intro F. apply gt_spec in F. congruence. }
        cbn [Badge.status].
    settle.
Qed.

Lemma bollinger_status_witness :
  Badge.status (getBollingerStatus (num 105) (num 110) (num 90) (num 100))
  = "Above Middle".
Proof.
  apply (bollinger_status (num 105) (num 110) (num 90) (num 100)).
  - reflexivity.
  - split; [|split]; reflexivity.
Defined.

(** X13: the moving-average badge reads 'Bullish' exactly when the price
    is above the short average and the short average above the long one,
    so only when the price is above both; 'Bearish' exactly in the mirror
    case, so only when the price is below both. *)
Theorem ma_status (price maShort maLong : number) :
  let status := Badge.status (getMAStatus price maShort maLong) in
  (status = "Bullish" <-> (maLong < maShort)%Qc /\ (maShort < price)%Qc)
  /\ (status = "Bearish" <-> (maShort < maLong)%Qc /\ (price < maShort)%Qc)
  /\ (status = "Bullish" -> (maLong < price)%Qc)
  /\ (status = "Bearish" -> (price < maLong)%Qc).
Proof.
  intro status. subst status. unfold getMAStatus.
  destruct (gt maShort maLong) eqn:A, (gt price maShort) eqn:B;
    destruct (lt maShort maLong) eqn:C, (lt price maShort) eqn:D;
    cbn [andb Badge.status]; crack;
    repeat match goal with H : _ /\ _ |- _ => destruct H end;
    try discriminate; try reflexivity;
    repeat match goal with
           | H : gt _ _ = true |- _ => apply gt_spec in H
           | H : lt _ _ = true |- _ => apply lt_spec in H
           end;
    try assumption;
    try (now apply Qclt_trans with maShort);
    try (exfalso;
         match goal with
         | H : gt ?x ?y = false, L : (?y < ?x)%Qc |- _ =>
             apply gt_spec in L; congruence
         | H : lt ?x ?y = false, L : (?x < ?y)%Qc |- _ =>
             apply lt_spec in L; congruence
         | H : (?x < ?y)%Qc, L : (?y < ?x)%Qc |- _ =>
             exact (lt_le_absurd _ _ H (Qclt_le_weak _ _ L))
         end).
Qed.

End Indicators.

(** ** The symbols of the form *)

Module Symbols.

Import Js MoreSamples.
Import CreateTrader.

Lemma includes_In (symbols : list string) (symbol : string) :
  includes symbols symbol = true <-> In symbol symbols.
Proof.
  unfold includes. rewrite existsb_exists. split.
  - intros (s & Hin & E). apply String.eqb_eq in E. now subst s.
  - intro Hin. exists symbol. split; [assumption|apply String.eqb_refl].
Qed.

Lemma remove_spec (symbol x : string) (symbols : list string) :
  In x (filter (fun s => negb (s =? symbol)) symbols)
  <-> In x symbols /\ x <> symbol.
Proof. now rewrite filter_In, negb_true_iff, String.eqb_neq. Qed.

Lemma remove_absent (symbol : string) (symbols : list string) :
  ~ In symbol symbols ->
  filter (fun s => negb (s =? symbol)) symbols = symbols.
Proof.
  induction symbols as [|s l IH]; intro Hn; [reflexivity|].
  cbn [filter]. destruct (s =? symbol) eqn:E.
  - apply String.eqb_eq in E. subst s. elim Hn. now left.
  - cbn [negb]. rewrite IH; [reflexivity|]. intro F. apply Hn. now right.
Qed.

Section Handlers.
Variable trim : string -> string.
Variable toUpperCase : string -> string.

Lemma step_NoDup (form : Form.t) (a : action) :
  NoDup (TraderConfig.symbols (Form.config form)) ->
  NoDup (TraderConfig.symbols
           (Form.config (step trim toUpperCase form a))).
Proof.
  intro Hn. destruct a as [text| |symbol]; cbn [step].
  - exact Hn.
  - unfold addSymbol.
    destruct (negb (trim (Form.newSymbol form) =? "")
              && negb (includes _ _)) eqn:E; [|exact Hn].
    apply andb_true_iff in E. destruct E as [_ E].
    apply negb_true_iff in E.
    cbn [Form.config with_symbols TraderConfig.symbols].
    apply (Permutation_NoDup (Permutation_cons_append _ _)).
    constructor; [|exact Hn].
    intro F. apply includes_In in F. congruence.
  - cbn [removeSymbol Form.config with_symbols TraderConfig.symbols].
    now apply NoDup_filter.
Qed.
End Handlers.

(** X15: whatever the user types, adds and removes, the list of symbols
    never holds a symbol twice, provided it did not to begin with, as is
    the case for the form as it opens. *)
Theorem symbols_stay_distinct (trim toUpperCase : string -> string)
        (actions : list action) (form : Form.t) :
  NoDup (TraderConfig.symbols (Form.config form)) ->
  NoDup (TraderConfig.symbols
           (Form.config (fold_left (step trim toUpperCase) actions form))).
Proof.
  revert form. induction actions as [|a actions IH]; intros form Hn.
  - exact Hn.
  - cbn [fold_left]. apply IH. now apply step_NoDup.
Qed.

Lemma symbols_stay_distinct_witness :
  NoDup (TraderConfig.symbols
           (Form.config
              (fold_left (step ascii_trim ascii_upper)
                         [Type_ " solusdt "; Add; Type_ "btcusdt"; Add;
                          Remove "ETHUSDT"]
                         initial_form))).
Proof.
  apply symbols_stay_distinct.
  repeat constructor; cbn; intuition discriminate.
Defined.

(** X16: adding and removing a symbol.  [addSymbol] appends the trimmed,
    upper-cased input when it is not blank and not yet listed, and clears
    the input; otherwise it changes nothing.  [removeSymbol] takes the
    symbol off the list and leaves the others in place, so removing what
    was just added gives the list back. *)
Theorem add_remove_symbol (trim toUpperCase : string -> string)
        (form : Form.t) :
  let symbols := TraderConfig.symbols (Form.config form) in
  let symbol := toUpperCase (trim (Form.newSymbol form)) in
  (trim (Form.newSymbol form) <> "" -> ~ In symbol symbols ->
   TraderConfig.symbols (Form.config (addSymbol trim toUpperCase form))
   = symbols ++ [symbol]
   /\ Form.newSymbol (addSymbol trim toUpperCase form) = ""
   /\ TraderConfig.symbols
        (Form.config (removeSymbol symbol
                                   (addSymbol trim toUpperCase form)))
      = symbols)
  /\ (trim (Form.newSymbol form) = "" \/ In symbol symbols ->
      addSymbol trim toUpperCase form = form)
  /\ (forall removed x : string,
        In x (TraderConfig.symbols
                (Form.config (removeSymbol removed form)))
        <-> In x symbols /\ x <> removed).
Proof.
  intros symbols symbol. split; [|split].
  - intros Hb Hn. unfold addSymbol. fold symbols symbol.
    apply String.eqb_neq in Hb. rewrite Hb.
    destruct (includes symbols symbol) eqn:E;
      [apply includes_In in E; contradiction|].
    cbn [negb andb Form.config Form.newSymbol with_symbols removeSymbol
              TraderConfig.symbols].
    repeat split. rewrite filter_app. cbn [filter].
    rewrite String.eqb_refl. cbn [negb].
    rewrite remove_absent by assumption. apply app_nil_r.
  - intros Hc. unfold addSymbol. fold symbols symbol.
    destruct Hc as [Hc|Hc].
    + rewrite Hc. reflexivity.
    + apply includes_In in Hc. rewrite Hc. now rewrite andb_false_r.
  - intros removed x.
    cbn [removeSymbol Form.config with_symbols TraderConfig.symbols].
    apply remove_spec.
Qed.

Lemma add_remove_symbol_witness :
  TraderConfig.symbols
    (Form.config (addSymbol ascii_trim ascii_upper typed_form))
  = ["BTCUSDT"; "ETHUSDT"; "SOLUSDT"]
  /\ TraderConfig.symbols
       (Form.config
          (removeSymbol "SOLUSDT"
                        (addSymbol ascii_trim ascii_upper typed_form)))
     = ["BTCUSDT"; "ETHUSDT"]
  /\ addSymbol ascii_trim ascii_upper initial_form = initial_form.
Proof.
  destruct (add_remove_symbol ascii_trim ascii_upper typed_form)
    as (Hadd & _ & _).
  destruct Hadd as (H1 & _ & H3).
  - discriminate.
  - cbn. intuition discriminate.
  - split; [exact H1|]. split; [exact H3|].
    apply (add_remove_symbol ascii_trim ascii_upper initial_form).
    left. reflexivity.
Defined.

End Symbols.

(** ** The selected trader *)

Module Selection.

Import Js MoreSamples.
Import Index.

Lemma find_trader_Some (data : list Trader.t) (s : string) (t : Trader.t) :
  find_trader data (Some s) = Some t -> In t data /\ Trader.id t = s.
Proof.
  cbn [find_trader]. intro E. apply find_some in E.
  destruct E as [Hin E]. now apply String.eqb_eq in E.
Qed.

Lemma find_trader_In (data : list Trader.t) (s : string) (t : Trader.t) :
  In t data -> Trader.id t = s -> find_trader data (Some s) <> None.
Proof.
  cbn [find_trader]. intros Hin E F.
  apply (find_none _ _ F) in Hin. rewrite E, String.eqb_refl in Hin.
  discriminate Hin.
Qed.

(** X17: the selection after a load of the trader list.  When the
    closure of the load reads the selection that is in the state: if
    there are traders, a listed trader is selected afterwards; a
    non-empty selection that is still listed is kept; and without
    traders nothing remains selected.  When the closure read no
    selection, the first trader is selected whenever there is one,
    whatever the state holds. *)
Theorem selection_after_a_load (current : option string)
        (data : list Trader.t) :
  let selected := selection_after_load current current data in
  (data <> [] -> exists t, In t data /\ selected = Some (Trader.id t))
  /\ (forall (s : string) (t : Trader.t),
        current = Some s -> s <> "" -> In t data -> Trader.id t = s ->
        selected = current)
  /\ (data = [] -> selected_truthy selected = false)
  /\ (forall (t : Trader.t) (others : list Trader.t)
             (state : option string),
        selection_after_load None state (t :: others)
        = Some (Trader.id t)).
Proof.
  intro selected. subst selected. unfold selection_after_load.
  split; [|split; [|split]].
  - intro Hne. destruct data as [|t data]; [congruence|].
    cbn [List.length Nat.ltb Nat.leb andb].
    destruct (selected_truthy current) eqn:T; cbn [negb andb].
    + destruct current as [s|]; [|discriminate T].
      destruct (find_trader (t :: data) (Some s)) as [t'|] eqn:F.
      * apply find_trader_Some in F. destruct F as [Hin <-].
        now exists t'.
      * exists t. split; [now left|reflexivity].
    + exists t. split; [now left|reflexivity].
  - intros s t -> Hs Hin Hid.
    assert (T : selected_truthy (Some s) = true).
    { cbn. apply negb_true_iff. now apply String.eqb_neq. }
    rewrite T. cbn [negb andb].
    destruct (find_trader data (Some s)) eqn:F; [reflexivity|].
    now elim (find_trader_In data s t Hin Hid).
  - intros ->. cbn [List.length Nat.ltb Nat.leb andb].
    rewrite andb_false_r.
    destruct (selected_truthy current) eqn:T; cbn [andb].
    + destruct current as [s|]; [|discriminate T]. reflexivity.
    + exact T.
  - reflexivity.
Qed.

Lemma selection_after_a_load_witness :
  selection_after_load (Some "t2") (Some "t2")
                       [trader "t1"; trader "t2"] = Some "t2"
  /\ exists t,
      In t [trader "t1"; trader "t3"]
      /\ selection_after_load (Some "t2") (Some "t2")
                              [trader "t1"; trader "t3"]
         = Some (Trader.id t).
Proof.
  split.
  - apply (proj1 (proj2 (selection_after_a_load
                           (Some "t2") [trader "t1"; trader "t2"]))
                 "t2" (trader "t2")); try reflexivity.
    + discriminate.
    + right. now left.
  - apply (proj1 (selection_after_a_load
                    (Some "t2") [trader "t1"; trader "t3"])).
    discriminate.
Defined.

End Selection.
